(** * Greedy grid packing of a polygon into a rectangular container

    A shallow embedding of [halefoglu-kurutepe.py]: the rotation set
    ([create_rotated_shapes]), the placement predicate ([can_place]), the
    placement engine ([place_shapes]) and the utilization figure computed at
    the end of [draw_full_convex_hull].

    Numbers.  The program computes with binary floating point; the embedding
    uses exact rationals ([Q] with [Qeq]), so every statement below is a
    statement about the program in exact arithmetic.

    Libraries.  The geometry comes from shapely ([Polygon], [rotate],
    [translate], [contains], [intersects], [bounds], [area]) and the hull from
    scipy ([ConvexHull]).  Neither is code of the program: the engine is
    written over a record of these operations ([Geometry]), their documented
    point-set meaning is a second record ([GeometryLaws]), and module [Box]
    gives an instance (axis-aligned rectangles) on which the engine runs and
    for which the laws are proved.  Module [Ring] has the rotation about
    the centroid on polygons given by their vertices. *)

From Stdlib Require Import List ZArith QArith Qabs Qround Qminmax Lia Lqa Bool String
  Permutation.
Import ListNotations.

Open Scope Q_scope.

(** ** numpy.arange *)

Module Numpy.

(** [np.arange(start, stop, step)]: the values [start + i * step] for
    [0 <= i < ceil((stop - start) / step)], none when that bound is not
    positive.  A zero step is an error in numpy ([None] here).  This is the
    range in exact arithmetic: numpy rounds the quotient and the values to
    floats, and it also raises on a range too long to allocate; neither is
    modelled. *)
Definition arange (start stop step : Q) : option (list Q) :=
  if Qeq_bool step 0 then None
  else
    let n := Z.to_nat (Qceiling ((stop - start) / step)) in
    Some (map (fun i => start + inject_Z (Z.of_nat i) * step) (seq 0 n)).

End Numpy.

(** ** The geometry interface *)

Definition Point2D : Type := (Q * Q)%type.

(** The shapely operations the program calls.  Polygons are immutable values:
    [rotate] and [translate] return new polygons. *)
Record Geometry : Type := {
  Polygon : Type;
  (** [Polygon(points)] *)
  Polygon_of : list Point2D -> Polygon;
  (** [a.contains(b)] *)
  contains : Polygon -> Polygon -> bool;
  (** [a.intersects(b)] *)
  intersects : Polygon -> Polygon -> bool;
  (** [rotate(shape, angle, origin='centroid', use_radians=False)];
      the angle is in degrees *)
  rotate : Polygon -> Z -> Polygon;
  (** [translate(shape, xoff=x, yoff=y)] *)
  translate : Polygon -> Q -> Q -> Polygon;
  (** [shape.area] *)
  area : Polygon -> Q;
  (** [shape.bounds], the tuple [(x_min, y_min, x_max, y_max)] *)
  bounds : Polygon -> Q * Q * Q * Q
}.

Arguments Polygon_of {g} _.
Arguments contains {g} _ _.
Arguments intersects {g} _ _.
Arguments rotate {g} _ _.
Arguments translate {g} _ _ _.
Arguments area {g} _.
Arguments bounds {g} _.

(** ** Python dictionaries keyed by the angle

    A [dict] keeps its keys in insertion order; assigning to a key that is
    already present replaces the value and leaves the key where it is. *)

Module Dict.

Section WithValue.

Context {V : Type}.

Definition t : Type := list (Z * V).

Definition empty : t := [].

(** [d[k] = v] *)
Fixpoint set (d : t) (k : Z) (v : V) : t :=
  match d with
  | [] => [(k, v)]
  | (k', v') :: d' =>
      if Z.eqb k' k then (k', v) :: d' else (k', v') :: set d' k v
  end.

(** [d[k]], [None] for the [KeyError] *)
Fixpoint get (d : t) (k : Z) : option V :=
  match d with
  | [] => None
  | (k', v') :: d' => if Z.eqb k' k then Some v' else get d' k
  end.

(** [d.items()] *)
Definition items (d : t) : list (Z * V) := d.

End WithValue.

Arguments t : clear implicits.

End Dict.

(** ** Loops and the mutable list *)

(** A computation on the mutable list [placed_shapes]: it returns a value
    and the list as it is afterwards. *)
Definition OnList (S A : Type) : Type := list S -> A * list S.

(** A [for] loop over a list whose body may raise. *)
Fixpoint for_each {A S : Type} (l : list A) (body : A -> S -> option S)
         (s : S) : option S :=
  match l with
  | [] => Some s
  | a :: l' =>
      match body a s with
      | Some s' => for_each l' body s'
      | None => None
      end
  end.

(** ** Section 3 of the program: shape operations *)

Section ShapeOperations.

Context {P : Type}.
Variable rotate_ : P -> Z -> P.

(** [create_rotated_shapes(shape, angles)] (lines 45-52): the loop assigns
    [rotated_shapes[angle]] for each angle in turn. *)
Definition create_rotated_shapes (shape : P) (angles : list Z) : Dict.t P :=
  fold_left (fun rotated_shapes angle =>
               Dict.set rotated_shapes angle (rotate_ shape angle))
            angles Dict.empty.

End ShapeOperations.

Section Engine.

Variable g : Geometry.

(** [create_shapely_polygon(points)] (lines 38-42) *)
Definition create_shapely_polygon (points : list Point2D) : Polygon g :=
  Polygon_of points.

(** The [for existing_shape in placed_shapes] loop of [can_place]
    (lines 61-64): [False] at the first shape the candidate intersects. *)
Fixpoint no_intersection (candidate : Polygon g)
         (placed_shapes : list (Polygon g)) : bool :=
  match placed_shapes with
  | [] => true
  | existing_shape :: rest =>
      if intersects candidate existing_shape then false
      else no_intersection candidate rest
  end.

(** [can_place(candidate, placed_shapes, bounds)] (lines 55-64).  The list
    argument is the caller's list object, so the function is a computation
    on that list, which comes last here; the polygons are immutable
    values. *)
Definition can_place (candidate : Polygon g) (bounds_ : Polygon g)
  : OnList (Polygon g) bool :=
  fun placed_shapes =>
    if negb (contains bounds_ candidate) then (false, placed_shapes)
    else (no_intersection candidate placed_shapes, placed_shapes).

(** The [for angle, rotated in rotated_shapes.items()] loop (lines 78-82)
    at one anchor: the first candidate that [can_place] accepts is appended
    and the loop is left by [break]. *)
Fixpoint try_angles (rotated_items : list (Z * Polygon g)) (x y : Q)
         (container : Polygon g) : OnList (Polygon g) unit :=
  fun placed_shapes =>
    match rotated_items with
    | [] => (tt, placed_shapes)
    | (angle, rotated) :: rest =>
        let candidate := translate rotated x y in
        let '(ok, placed_shapes) :=
          can_place candidate container placed_shapes in
        if ok then (tt, placed_shapes ++ [candidate])
        else try_angles rest x y container placed_shapes
    end.

(** [place_shapes(container, shape, angles, grid_step)] (lines 67-83).
    [None] stands for the exception numpy raises on a zero step. *)
Definition place_shapes (container shape : Polygon g) (angles : list Z)
           (grid_step : Q) : option (list (Polygon g)) :=
  let bounds_ := bounds container in
  let rotated_shapes := create_rotated_shapes rotate shape angles in
  let placed_shapes := [] in
  let '(x_min, y_min, x_max, y_max) := bounds_ in
  match Numpy.arange x_min x_max grid_step with
  | None => None
  | Some xs =>
      for_each xs (fun x placed_shapes =>
        match Numpy.arange y_min y_max grid_step with
        | None => None
        | Some ys =>
            for_each ys (fun y placed_shapes =>
              Some (snd (try_angles (Dict.items rotated_shapes) x y
                                    container placed_shapes)))
              placed_shapes
        end) placed_shapes
  end.

(** The efficiency calculation of [draw_full_convex_hull] (lines 128-131).
    [sum] starts from 0 and adds the areas from left to right; the division
    raises [ZeroDivisionError] on a container of area 0 ([None]). *)
Definition total_shape_area (placed_shapes : list (Polygon g)) : Q :=
  fold_left (fun acc shape => acc + area shape) placed_shapes 0.

Definition utilization_percentage (placed_shapes : list (Polygon g))
           (container : Polygon g) : option Q :=
  let total_shape_area := total_shape_area placed_shapes in
  let total_cutting_area := area container in
  if Qeq_bool total_cutting_area 0 then None
  else Some ((total_shape_area / total_cutting_area) * 100).

(** ** Section 4 of the program: the cutting area *)

(** What a call of [draw_full_convex_hull] ends in. *)
Inductive Outcome : Type :=
| ShowError (title message : string)
    (** [messagebox.showerror(title, message)], then [return] *)
| Raised
    (** an exception of a library call leaves the function *)
| Shown (container : Polygon g) (placed_shapes : list (Polygon g))
        (utilization_percentage : Q)
    (** the layout and the efficiency text are drawn *).

(** [ConvexHull(points).vertices] of scipy: the indices of the hull's
    vertices, or [None] when Qhull raises on degenerate input. *)
Variable ConvexHull : list Point2D -> option (list nat).

(** [draw_full_convex_hull(points, x_limit, y_limit)] (lines 89-135); the
    plotting calls draw what [Shown] carries. *)
Definition draw_full_convex_hull (points : list Point2D) (x_limit y_limit : Q)
  : Outcome :=
  if (List.length points <? 3)%nat then
    ShowError "Error"%string "At least 3 points must be selected!"%string
  else
    match ConvexHull points with
    | None => Raised
    | Some vertices =>
        (* [points[convex_hull.vertices]]; the indices are within range *)
        let hull_points := map (fun i => nth i points (0, 0)) vertices in
        let original_shape := create_shapely_polygon hull_points in
        let container : Polygon g :=
          Polygon_of [(0, 0); (x_limit, 0); (x_limit, y_limit); (0, y_limit)] in
        let angles := [0; 90; 180; 270]%Z in
        match place_shapes container original_shape angles 10 with
        | None => Raised
        | Some placed_shapes =>
            match utilization_percentage placed_shapes container with
            | None => Raised
            | Some u => Shown container placed_shapes u
            end
        end
    end.

End Engine.

Arguments ShowError {g} _ _.
Arguments Raised {g}.
Arguments Shown {g} _ _ _.

(** The layout a call produced, if it produced one. *)
Definition layout_of {g : Geometry} (o : Outcome g)
  : option (Polygon g * list (Polygon g)) :=
  match o with
  | Shown container placed_shapes _ => Some (container, placed_shapes)
  | _ => None
  end.

(** The sum of the areas of the shapes of a list, as the design words the
    numerator of the utilization; it is stated apart from the loop of the
    program ([total_shape_area]) so that the two can be compared. *)
Definition sum_of_areas {g : Geometry} (shapes : list (Polygon g)) : Q :=
  fold_right Qplus 0 (map area shapes).

(** ** Derived notions used in the statements *)

(** The anchors [place_shapes] visits, in the order it visits them: [x] in
    the outer loop, [y] in the inner one. *)
Definition anchors (b : Q * Q * Q * Q) (grid_step : Q) : option (list (Q * Q)) :=
  let '(x_min, y_min, x_max, y_max) := b in
  match Numpy.arange x_min x_max grid_step,
        Numpy.arange y_min y_max grid_step with
  | Some xs, Some ys => Some (list_prod xs ys)
  | _, _ => None
  end.

(** How many values [np.arange] yields. *)
Definition arange_count (start stop step : Q) : nat :=
  Z.to_nat (Qceiling ((stop - start) / step)).

Section EngineNotions.

Variable g : Geometry.

(** Does the variant of an entry of the rotation set, moved to the anchor,
    pass the predicate? *)
Definition accepts (x y : Q) (container : Polygon g)
           (placed : list (Polygon g)) (kv : Z * Polygon g) : bool :=
  fst (can_place g (translate (snd kv) x y) container placed).

(** The list after the anchor [(x, y)]. *)
Definition place_at (items : list (Z * Polygon g)) (container : Polygon g)
           (placed : list (Polygon g)) (xy : Q * Q) : list (Polygon g) :=
  snd (try_angles g items (fst xy) (snd xy) container placed).

(** What the sweep keeps true of the list: every shape is a moved rotation
    of the base shape that the container contains, and no shape intersects
    one that was placed before it. *)
Record placed_ok (container shape : Polygon g) (placed : list (Polygon g))
  : Prop := {
  ok_contained : Forall (fun p => contains container p = true) placed;
  ok_apart : ForallOrdPairs (fun a b => intersects b a = false) placed;
  ok_copies : Forall (fun p => exists a x y, p = translate (rotate shape a) x y)
                     placed
}.

End EngineNotions.

Arguments accepts {g} _ _ _ _ _.
Arguments place_at {g} _ _ _ _.
Arguments placed_ok {g} _ _ _.
Arguments ok_contained {g container shape placed} _.
Arguments ok_apart {g container shape placed} _.
Arguments ok_copies {g container shape placed} _.

(** ** What the shapely operations mean

    shapely documents its predicates on point sets: [a.intersects(b)] holds
    when boundary or interior of [a] meet those of [b] in any way, and
    [a.contains(b)] when no point of [b] lies in the exterior of [a] and the
    interiors meet.  For well-formed polygons (non-empty interior) the second
    condition of [contains] follows from the first.  [pts] is the closed
    point set of a polygon (interior and boundary), [interior] its open
    part, [valid] says that the polygon is well formed. *)

Record GeometryLaws (g : Geometry) : Type := {
  valid : Polygon g -> Prop;
  pts : Polygon g -> Q -> Q -> Prop;
  interior : Polygon g -> Q -> Q -> Prop;
  rotate_valid : forall p a, valid p -> valid (rotate p a);
  translate_valid : forall p x y, valid p -> valid (translate p x y);
  interior_pts : forall p x y, valid p -> interior p x y -> pts p x y;
  contains_spec : forall a b, valid a -> valid b ->
    (contains a b = true <-> forall x y, pts b x y -> pts a x y);
  intersects_spec : forall a b, valid a -> valid b ->
    (intersects a b = true <-> exists x y, pts a x y /\ pts b x y);
  area_pos : forall p, valid p -> 0 < area p;
  (** area is a measure: polygons within [c] whose interiors are pairwise
      disjoint have at most the area of [c] together *)
  area_packing : forall c l, valid c -> Forall valid l ->
    Forall (fun p => forall x y, pts p x y -> pts c x y) l ->
    ForallOrdPairs
      (fun a b => forall x y, ~ (interior a x y /\ interior b x y)) l ->
    sum_of_areas l <= area c
}.

Arguments valid {g} _ _.
Arguments pts {g} _ _ _ _.
Arguments interior {g} _ _ _ _.
Arguments rotate_valid {g}.
Arguments translate_valid {g}.
Arguments interior_pts {g}.
Arguments contains_spec {g}.
Arguments intersects_spec {g}.
Arguments area_pos {g}.
Arguments area_packing {g}.

(** ** Axis-aligned rectangles

    The polygons whose boundary is an axis-aligned rectangle, given by their
    lower-left and upper-right corners: the container of the program is one,
    and so is a square base shape. *)

Module Box.

Record t : Type := mk { x0 : Q; y0 : Q; x1 : Q; y1 : Q }.

Definition valid (b : t) : Prop := x0 b < x1 b /\ y0 b < y1 b.

Definition pts (b : t) (x y : Q) : Prop :=
  (x0 b <= x /\ x <= x1 b) /\ (y0 b <= y /\ y <= y1 b).

Definition interior (b : t) (x y : Q) : Prop :=
  (x0 b < x /\ x < x1 b) /\ (y0 b < y /\ y < y1 b).

(** The polygon through the given corners of a rectangle: the extent of the
    points in both coordinates. *)
Definition of_points (points : list Point2D) : t :=
  match points with
  | [] => mk 0 0 0 0
  | (x, y) :: rest =>
      fold_left (fun b '(x, y) =>
                   mk (Qmin (x0 b) x) (Qmin (y0 b) y)
                      (Qmax (x1 b) x) (Qmax (y1 b) y))
                rest (mk x y x y)
  end.

(** No point of [b] lies outside [a]. *)
Definition contains (a b : t) : bool :=
  Qle_bool (x0 a) (x0 b) && Qle_bool (x1 b) (x1 a) &&
  Qle_bool (y0 a) (y0 b) && Qle_bool (y1 b) (y1 a).

(** The two closed rectangles share a point: their extents overlap or touch
    in both coordinates. *)
Definition intersects (a b : t) : bool :=
  Qle_bool (x0 a) (x1 b) && Qle_bool (x0 b) (x1 a) &&
  Qle_bool (y0 a) (y1 b) && Qle_bool (y0 b) (y1 a).

(** A quarter turn about the centroid exchanges width and height around the
    centre, a half turn gives the rectangle back.  Only multiples of 90
    degrees keep a rectangle axis-aligned; at any other angle the rectangle
    is returned as it is, and the instance is not used there. *)
Definition rotate (b : t) (angle : Z) : t :=
  if (angle mod 180 =? 90)%Z then
    let cx := (x0 b + x1 b) / 2 in
    let cy := (y0 b + y1 b) / 2 in
    let w := (x1 b - x0 b) / 2 in
    let h := (y1 b - y0 b) / 2 in
    mk (cx - h) (cy - w) (cx + h) (cy + w)
  else b.

Definition translate (b : t) (xoff yoff : Q) : t :=
  mk (x0 b + xoff) (y0 b + yoff) (x1 b + xoff) (y1 b + yoff).

Definition area (b : t) : Q := (x1 b - x0 b) * (y1 b - y0 b).

Definition bounds (b : t) : Q * Q * Q * Q := (x0 b, y0 b, x1 b, y1 b).

Definition geometry : Geometry :=
  Build_Geometry t of_points contains intersects rotate translate area bounds.

End Box.

(** ** Unit cells of an integer grid

    Used to compare areas of rectangles: on a grid fine enough for all the
    corners, the area of a rectangle is the number of its cells. *)

Module Cells.

Definition ZBox : Type := (Z * Z * Z * Z)%type.

Definition zrange (a b : Z) : list Z :=
  map (fun i => (a + Z.of_nat i)%Z) (seq 0 (Z.to_nat (b - a))).

(** The cells of a rectangle, each named by its lower-left corner. *)
Definition cells (b : ZBox) : list (Z * Z) :=
  let '(x0, y0, x1, y1) := b in list_prod (zrange x0 x1) (zrange y0 y1).

Definition zarea (b : ZBox) : Z :=
  let '(x0, y0, x1, y1) := b in ((x1 - x0) * (y1 - y0))%Z.

Definition wf (b : ZBox) : Prop :=
  let '(x0, y0, x1, y1) := b in (x0 <= x1)%Z /\ (y0 <= y1)%Z.

Definition coords (b : Box.t) : list Q :=
  [Box.x0 b; Box.y0 b; Box.x1 b; Box.y1 b].

(** A common denominator of a list of rationals. *)
Definition common_den (qs : list Q) : positive :=
  fold_right (fun q d => (Qden q * d)%positive) 1%positive qs.

(** [q] in units of [1 / D], for [D] a multiple of the denominator of [q]. *)
Definition scale (D : positive) (q : Q) : Z :=
  (Qnum q * (Z.pos D / Z.pos (Qden q)))%Z.

Definition scale_box (D : positive) (b : Box.t) : ZBox :=
  (scale D (Box.x0 b), scale D (Box.y0 b), scale D (Box.x1 b), scale D (Box.y1 b)).

(** [D] is a multiple of the denominator of [q]. *)
Definition fits (D : positive) (q : Q) : Prop := (Z.pos (Qden q) | Z.pos D)%Z.

(** The centre of the cell [i], in the original units. *)
Definition centre (D : positive) (i : Z) : Q :=
  (inject_Z i + (1 # 2)) / inject_Z (Z.pos D).

Definition fits_box (D : positive) (b : Box.t) : Prop :=
  Forall (fits D) (coords b).

End Cells.

(** ** Polygons as rings of vertices

    The rotation itself is shapely's and not part of the program; the
    design describes it, and this module follows that description on
    polygons given by their vertices in order. *)

Module Ring.

Definition t : Type := list Point2D.

(** Two points, or two rings vertex by vertex, with equal coordinates. *)
Definition peq (p q : Point2D) : Prop := fst p == fst q /\ snd p == snd q.

Definition eqv (r s : t) : Prop := Forall2 peq r s.

Definition cross (p q : Point2D) : Q := fst p * snd q - fst q * snd p.

(** The sum of [f] over the edges of the closed ring that starts at [first],
    from the vertex [prev] on. *)
Fixpoint edge_sum (f : Point2D -> Point2D -> Q) (first prev : Point2D)
         (l : list Point2D) : Q :=
  match l with
  | [] => f prev first
  | p :: l' => f prev p + edge_sum f first p l'
  end.

Definition over_edges (f : Point2D -> Point2D -> Q) (shape : t) : Q :=
  match shape with
  | [] => 0
  | p :: l => edge_sum f p p l
  end.

(** Modelled from the spec: the area and the centroid are the derived
    attributes of a polygon in the design's data model; shapely computes
    them, here they are the surveyor's formulas over the ring. *)
Definition signed_area (shape : t) : Q := over_edges cross shape / 2.

Definition area (shape : t) : Q := Qabs (signed_area shape).

Definition centroid (shape : t) : Point2D :=
  let a := signed_area shape in
  (over_edges (fun p q => (fst p + fst q) * cross p q) shape / (6 * a),
   over_edges (fun p q => (snd p + snd q) * cross p q) shape / (6 * a)).

Section Rotation.

(** Cosine and sine of an angle in degrees. *)
Variables cosd sind : Z -> Q.

Definition rotate_point (c : Point2D) (angle : Z) (p : Point2D) : Point2D :=
  (fst c + (fst p - fst c) * cosd angle - (snd p - snd c) * sind angle,
   snd c + (fst p - fst c) * sind angle + (snd p - snd c) * cosd angle).

(** Modelled from the spec: shapely's [rotate] is missing from the source;
    section 4.2 of the design has each entry of the rotation set be the
    shape rotated about its own centroid by the angle, vertex order
    preserved. *)
Definition rotate (shape : t) (angle : Z) : t :=
  map (rotate_point (centroid shape) angle) shape.

End Rotation.

(** Cosine and sine at the multiples of 90 degrees. *)
Definition cosd_quarter (angle : Z) : Q :=
  match (angle mod 360)%Z with
  | 0%Z => 1
  | 180%Z => - (1)
  | _ => 0
  end.

Definition sind_quarter (angle : Z) : Q :=
  match (angle mod 360)%Z with
  | 90%Z => 1
  | 270%Z => - (1)
  | _ => 0
  end.

End Ring.

(** ** The inputs of the scenarios *)

Definition unit_square : Box.t :=
  Box.of_points [(0, 0); (1, 0); (1, 1); (0, 1)].

Definition container_10x10 : Box.t :=
  Box.of_points [(0, 0); (10, 0); (10, 10); (0, 10)].

(** The list of scenario 1. *)
Definition scenario1 : option (list Box.t) :=
  place_shapes Box.geometry container_10x10 unit_square [0%Z] 1.

(** The squares at the even anchors. *)
Definition even_squares : list Box.t :=
  map (fun '(i, j) => Box.mk (inject_Z i) (inject_Z j)
                             (inject_Z (i + 1)) (inject_Z (j + 1)))
      (list_prod [0; 2; 4; 6; 8]%Z [0; 2; 4; 6; 8]%Z).

(** The hull of the scenario's square: its four corners in order. *)
Definition hull_of_square (points : list Point2D) : option (list nat) :=
  Some [0; 1; 2; 3]%nat.

(** The triangle of scenario 2. *)
Definition triangle : Ring.t := [(0, 0); (2, 0); (0, 2)].

(** ** Section 5 of the program: the two buttons

    [start_gui] binds two handlers to the buttons of the window.  They share
    the global variable [points], which is [None] when the program starts
    (line 178).  What the user clicked in the plot comes back from
    [select_points_on_plot] as an array of points. *)

(** The dialogs [on_select_points] shows. *)
Inductive Message : Type :=
| showwarning (title message : string)
| showinfo (title message : string).

(** [on_select_points()] (lines 145-152): [selected] is what
    [select_points_on_plot()] returned; the result is the dialog shown and
    the global [points] afterwards. *)
Definition on_select_points (selected : list Point2D)
           (points : option (list Point2D))
  : Message * option (list Point2D) :=
  let points := Some selected in
  if (List.length selected <? 3)%nat then
    (showwarning "Warning" "At least 3 points must be selected!", None)
  else
    (showinfo "Success" "Points have been successfully selected!", points).

Section Buttons.

Variable g : Geometry.
Variable ConvexHull : list Point2D -> option (list nat).

(** [on_display_cutting_area()] (lines 154-158); it reads the global
    [points] and leaves it as it is. *)
Definition on_display_cutting_area (points : option (list Point2D))
  : Outcome g :=
  match points with
  | None => ShowError "Error" "Please select points first!"
  | Some selected =>
      if (List.length selected <? 3)%nat then
        ShowError "Error" "Please select points first!"
      else draw_full_convex_hull g ConvexHull selected 1000 200
  end.

End Buttons.

(** A press of one of the two buttons; the first carries what the user
    then clicks in the plot. *)
Inductive Press : Type :=
| SelectPoints (selected : list Point2D)
| ShowCuttingArea.

(** The global [points] after a sequence of presses. *)
Definition after_press (points : option (list Point2D)) (p : Press)
  : option (list Point2D) :=
  match p with
  | SelectPoints selected => snd (on_select_points selected points)
  | ShowCuttingArea => points
  end.

Definition points_after (presses : list Press) : option (list Point2D) :=
  fold_left after_press presses None.

(** ** Notions for the statements about the sweep *)

(** [l] with every repetition of an earlier element removed. *)
Fixpoint first_occurrences (l : list Z) : list Z :=
  match l with
  | [] => []
  | a :: l' => a :: filter (fun b => negb (Z.eqb a b)) (first_occurrences l')
  end.

(** [s] is [l] with some elements left out. *)
Inductive Subseq {A : Type} : list A -> list A -> Prop :=
| Subseq_nil : Subseq [] []
| Subseq_skip a s l : Subseq s l -> Subseq s (a :: l)
| Subseq_take a s l : Subseq s l -> Subseq (a :: s) (a :: l).

(** The container of a call with [x_limit = 0]: a rectangle without width,
    with the corners the program gives it. *)
Definition flat_container : Box.t :=
  Box.of_points [(0, 0); (0, 0); (0, 200); (0, 200)].

(** * Properties *)

(** ** The dictionary of rotated shapes *)

Section DictFacts.

Context {V : Type}.

Lemma dict_set_keys (d : Dict.t V) k v :
  map fst (Dict.set d k v) =
  if existsb (Z.eqb k) (map fst d) then map fst d else map fst d ++ [k].
Proof.
  induction d as [|[k' v'] d IH]; simpl; [reflexivity|].
  rewrite (Z.eqb_sym k k').
  destruct (Z.eqb k' k); simpl; [reflexivity|].
  rewrite IH. destruct (existsb _ _); reflexivity.
Qed.

Lemma dict_set_values (d : Dict.t V) k v (f : Z -> V) :
  Forall (fun kv => snd kv = f (fst kv)) d -> v = f k ->
  Forall (fun kv => snd kv = f (fst kv)) (Dict.set d k v).
Proof.
  intros Hd Hv. induction Hd as [|[k' v'] d Hkv Hd IH]; simpl.
  - constructor; [exact Hv | constructor].
  - destruct (Z.eqb_spec k' k) as [->|Hne].
    + constructor; [exact Hv | exact Hd].
    + constructor; [exact Hkv | exact IH].
Qed.

Lemma dict_get_set_same (d : Dict.t V) k v : Dict.get (Dict.set d k v) k = Some v.
Proof.
  induction d as [|[k' v'] d IH]; simpl.
  - rewrite Z.eqb_refl. reflexivity.
  - destruct (Z.eqb k' k) eqn:E; simpl; rewrite E; [reflexivity | exact IH].
Qed.

Lemma dict_get_set_other (d : Dict.t V) k k' v :
  k <> k' -> Dict.get (Dict.set d k v) k' = Dict.get d k'.
Proof.
  intros Hne. induction d as [|[k0 v0] d IH]; simpl.
  - destruct (Z.eqb_spec k k'); [contradiction | reflexivity].
  - destruct (Z.eqb_spec k0 k) as [->|H0]; simpl.
    + destruct (Z.eqb_spec k k'); [contradiction | reflexivity].
    + rewrite IH. reflexivity.
Qed.

End DictFacts.

Section RotationSetFacts.

Context {P : Type}.
Variable rot : P -> Z -> P.

Lemma create_rotated_shapes_snoc shape angles a :
  create_rotated_shapes rot shape (angles ++ [a]) =
  Dict.set (create_rotated_shapes rot shape angles) a (rot shape a).
Proof. unfold create_rotated_shapes. rewrite fold_left_app. reflexivity. Qed.

(** Every entry of the rotation set holds the shape rotated by its key. *)
Lemma create_rotated_shapes_values shape angles :
  Forall (fun kv => snd kv = rot shape (fst kv))
         (create_rotated_shapes rot shape angles).
Proof.
  induction angles as [|a angles IH] using rev_ind.
  - constructor.
  - rewrite create_rotated_shapes_snoc. apply dict_set_values; auto.
Qed.

(** A key is in the rotation set exactly when it is in the angle list. *)
Lemma create_rotated_shapes_keys_in shape angles k :
  In k (map fst (create_rotated_shapes rot shape angles)) <-> In k angles.
Proof.
  induction angles as [|a angles IH] using rev_ind.
  - simpl. tauto.
  - rewrite create_rotated_shapes_snoc, dict_set_keys, in_app_iff.
    destruct (existsb _ _) eqn:E.
    + rewrite IH. simpl. split; [tauto|]. intros [H|[<-|[]]]; [exact H|].
      apply existsb_exists in E. destruct E as [k' [Hin Hk]].
      apply Z.eqb_eq in Hk. subst k'. apply IH. exact Hin.
    + rewrite in_app_iff, IH. reflexivity.
Qed.

(** Looking for the first key that satisfies a test gives the same key in
    the rotation set as in the angle list: repeated angles are dropped from
    the set, and a repeated angle had its turn at its first occurrence. *)
Lemma create_rotated_shapes_find (f : Z -> bool) shape angles :
  find f (map fst (create_rotated_shapes rot shape angles)) = find f angles.
Proof.
  induction angles as [|a angles IH] using rev_ind; [reflexivity|].
  rewrite create_rotated_shapes_snoc, dict_set_keys.
  assert (Happ : forall l, find f (l ++ [a]) =
            match find f l with Some b => Some b | None => find f [a] end).
  { induction l as [|b l IHl]; simpl; [reflexivity|].
    destruct (f b); [reflexivity | exact IHl]. }
  rewrite Happ. destruct (existsb _ _) eqn:E.
  - rewrite IH. destruct (find f angles) eqn:F; [reflexivity|].
    apply existsb_exists in E. destruct E as [k' [Hin Hk]].
    apply Z.eqb_eq in Hk. subst k'.
    apply create_rotated_shapes_keys_in in Hin.
    simpl. rewrite (find_none _ _ F _ Hin). reflexivity.
  - rewrite Happ, IH. reflexivity.
Qed.

End RotationSetFacts.

(** ** The grid *)

Lemma arange_nonzero start stop step :
  ~ step == 0 ->
  exists l, Numpy.arange start stop step = Some l /\
            List.length l = arange_count start stop step.
Proof.
  intros Hs. unfold Numpy.arange.
  destruct (Qeq_bool step 0) eqn:E.
  - apply Qeq_bool_iff in E. contradiction.
  - eexists. split; [reflexivity|].
    rewrite length_map, length_seq. reflexivity.
Qed.

Lemma arange_zero start stop step :
  step == 0 -> Numpy.arange start stop step = None.
Proof.
  intros Hs. unfold Numpy.arange.
  apply Qeq_bool_iff in Hs. rewrite Hs. reflexivity.
Qed.

Lemma for_each_total {A S : Type} (f : A -> S -> S) l s :
  for_each l (fun a s => Some (f a s)) s = Some (fold_left (fun s a => f a s) l s).
Proof.
  revert s. induction l as [|a l IH]; intros s; simpl; [reflexivity | apply IH].
Qed.

Lemma fold_left_list_prod {A B S : Type} (f : S -> A * B -> S) xs ys s :
  fold_left f (list_prod xs ys) s =
  fold_left (fun s x => fold_left (fun s y => f s (x, y)) ys s) xs s.
Proof.
  revert s. induction xs as [|x xs IH]; intros s; simpl; [reflexivity|].
  rewrite fold_left_app, IH. f_equal.
  clear. revert s. induction ys as [|y ys IH]; intros s; simpl; [reflexivity|].
  apply IH.
Qed.

Section EngineFacts.

Variable g : Geometry.

(** *** The predicate *)

Lemma no_intersection_true candidate placed :
  no_intersection g candidate placed = true <->
  Forall (fun e => intersects candidate e = false) placed.
Proof.
  induction placed as [|e placed IH]; simpl.
  - split; [constructor | reflexivity].
  - destruct (intersects candidate e) eqn:E.
    + split; [discriminate|]. intros H. inversion H; congruence.
    + rewrite IH. split; [intros H; constructor; assumption|].
      intros H. inversion H; assumption.
Qed.

Lemma no_intersection_false candidate placed :
  no_intersection g candidate placed = false <->
  Exists (fun e => intersects candidate e = true) placed.
Proof.
  induction placed as [|e placed IH]; simpl.
  - split; [discriminate | intros H; inversion H].
  - destruct (intersects candidate e) eqn:E.
    + split; [intros _; left; exact E | reflexivity].
    + rewrite IH. split; [intros H; right; exact H|].
      intros H. inversion H; [congruence | assumption].
Qed.

Lemma can_place_fst candidate container placed :
  fst (can_place g candidate container placed) =
  contains container candidate && no_intersection g candidate placed.
Proof.
  unfold can_place. destruct (contains container candidate); reflexivity.
Qed.

Lemma can_place_snd candidate container placed :
  snd (can_place g candidate container placed) = placed.
Proof.
  unfold can_place. destruct (negb _); reflexivity.
Qed.

Lemma can_place_true candidate container placed :
  fst (can_place g candidate container placed) = true <->
  contains container candidate = true /\
  Forall (fun e => intersects candidate e = false) placed.
Proof.
  rewrite can_place_fst, andb_true_iff, no_intersection_true. reflexivity.
Qed.

(** *** One anchor *)

Lemma try_angles_find items x y container placed :
  try_angles g items x y container placed =
  (tt, match find (accepts x y container placed) items with
       | Some kv => placed ++ [translate (snd kv) x y]
       | None => placed
       end).
Proof.
  induction items as [|[a r] items IH]; simpl; [reflexivity|].
  unfold accepts at 1. simpl.
  destruct (can_place g (translate r x y) container placed) as [ok l] eqn:E.
  pose proof (can_place_snd (translate r x y) container placed) as Hl.
  rewrite E in Hl. simpl in Hl. subst l. simpl.
  destruct ok; [reflexivity | exact IH].
Qed.

(** *** The whole sweep *)

Lemma place_shapes_anchors container shape angles grid_step :
  place_shapes g container shape angles grid_step =
  option_map
    (fun l => fold_left
                (place_at (Dict.items (create_rotated_shapes rotate shape angles))
                          container) l [])
    (anchors (bounds container) grid_step).
Proof.
  unfold place_shapes, anchors.
  destruct (bounds container) as [[[x_min y_min] x_max] y_max].
  destruct (Qeq_dec grid_step 0) as [Hz|Hnz].
  - rewrite !arange_zero by exact Hz. reflexivity.
  - destruct (arange_nonzero x_min x_max grid_step Hnz) as [xs [-> _]].
    destruct (arange_nonzero y_min y_max grid_step Hnz) as [ys [-> _]].
    simpl. rewrite fold_left_list_prod.
    generalize (@nil (Polygon g)).
    induction xs as [|x xs IH]; intros s; simpl; [reflexivity|].
    rewrite for_each_total. apply IH.
Qed.

Lemma place_shapes_total container shape angles grid_step :
  ~ grid_step == 0 ->
  exists placed, place_shapes g container shape angles grid_step = Some placed.
Proof.
  intros Hnz. rewrite place_shapes_anchors. unfold anchors.
  destruct (bounds container) as [[[x_min y_min] x_max] y_max].
  destruct (arange_nonzero x_min x_max grid_step Hnz) as [xs [-> _]].
  destruct (arange_nonzero y_min y_max grid_step Hnz) as [ys [-> _]].
  eexists. reflexivity.
Qed.

Lemma FOP_snoc {A : Type} (R : A -> A -> Prop) l b :
  ForallOrdPairs R l -> Forall (fun a => R a b) l -> ForallOrdPairs R (l ++ [b]).
Proof.
  intros Hl Hb. induction Hl as [|a l Ha Hl IH]; simpl.
  - constructor; constructor.
  - inversion Hb; subst. constructor.
    + apply Forall_app. split; [exact Ha | constructor; [assumption | constructor]].
    + apply IH. assumption.
Qed.

Lemma place_at_ok (container shape : Polygon g) angles placed xy :
  placed_ok container shape placed ->
  placed_ok container shape
    (place_at (Dict.items (create_rotated_shapes rotate shape angles))
              container placed xy).
Proof.
  intros [Hc Ha Hs]. unfold place_at. rewrite try_angles_find. simpl.
  destruct (find _ _) as [[a r]|] eqn:F; [|constructor; assumption].
  apply find_some in F. destruct F as [Hin Hacc].
  unfold accepts in Hacc. simpl in Hacc. apply can_place_true in Hacc.
  destruct Hacc as [Hcont Hint]. simpl.
  pose proof (create_rotated_shapes_values (@rotate g) shape angles) as Hv.
  rewrite Forall_forall in Hv. specialize (Hv _ Hin). simpl in Hv.
  constructor.
  - apply Forall_app. split; [exact Hc | constructor; [exact Hcont | constructor]].
  - apply FOP_snoc; assumption.
  - apply Forall_app. split; [exact Hs|]. constructor; [|constructor].
    exists a, (fst xy), (snd xy). rewrite Hv. reflexivity.
Qed.

Lemma place_shapes_ok (container shape : Polygon g) angles grid_step placed :
  place_shapes g container shape angles grid_step = Some placed ->
  placed_ok container shape placed.
Proof.
  rewrite place_shapes_anchors.
  destruct (anchors _ _) as [l|]; [|discriminate].
  simpl. intros [= <-].
  assert (H0 : placed_ok container shape []) by (constructor; constructor).
  revert H0. generalize (@nil (Polygon g)).
  induction l as [|xy l IH]; intros s Hs; simpl; [exact Hs|].
  apply IH. apply place_at_ok. exact Hs.
Qed.

End EngineFacts.

(** ** The rectangle instance satisfies the laws *)

Module BoxFacts.

Lemma contains_iff a b :
  Box.contains a b = true <->
  (Box.x0 a <= Box.x0 b /\ Box.x1 b <= Box.x1 a) /\
  (Box.y0 a <= Box.y0 b /\ Box.y1 b <= Box.y1 a).
Proof.
  unfold Box.contains. rewrite !andb_true_iff, !Qle_bool_iff. tauto.
Qed.

Lemma intersects_iff a b :
  Box.intersects a b = true <->
  (Box.x0 a <= Box.x1 b /\ Box.x0 b <= Box.x1 a) /\
  (Box.y0 a <= Box.y1 b /\ Box.y0 b <= Box.y1 a).
Proof.
  unfold Box.intersects. rewrite !andb_true_iff, !Qle_bool_iff. tauto.
Qed.

(** Containment of the point sets is containment of the corners. *)
Lemma subset_corners a b :
  Box.valid b ->
  (forall x y, Box.pts b x y -> Box.pts a x y) ->
  (Box.x0 a <= Box.x0 b /\ Box.x1 b <= Box.x1 a) /\
  (Box.y0 a <= Box.y0 b /\ Box.y1 b <= Box.y1 a).
Proof.
  intros [Hx Hy] H.
  assert (H0 : Box.pts b (Box.x0 b) (Box.y0 b)) by (unfold Box.pts; lra).
  assert (H1 : Box.pts b (Box.x1 b) (Box.y1 b)) by (unfold Box.pts; lra).
  apply H in H0. apply H in H1. unfold Box.pts in H0, H1. lra.
Qed.

Lemma contains_spec a b :
  Box.valid a -> Box.valid b ->
  (Box.contains a b = true <-> forall x y, Box.pts b x y -> Box.pts a x y).
Proof.
  intros _ Hb. rewrite contains_iff. split.
  - intros H x y. unfold Box.pts. lra.
  - apply subset_corners. exact Hb.
Qed.

Lemma intersects_spec a b :
  Box.valid a -> Box.valid b ->
  (Box.intersects a b = true <-> exists x y, Box.pts a x y /\ Box.pts b x y).
Proof.
  intros [Hax Hay] [Hbx Hby]. rewrite intersects_iff. split.
  - intros H.
    exists (if Qlt_le_dec (Box.x0 a) (Box.x0 b) then Box.x0 b else Box.x0 a).
    exists (if Qlt_le_dec (Box.y0 a) (Box.y0 b) then Box.y0 b else Box.y0 a).
    unfold Box.pts.
    destruct (Qlt_le_dec (Box.x0 a) (Box.x0 b));
      destruct (Qlt_le_dec (Box.y0 a) (Box.y0 b)); lra.
  - intros [x [y [Ha Hb]]]. unfold Box.pts in Ha, Hb. lra.
Qed.

Lemma rotate_valid b a : Box.valid b -> Box.valid (Box.rotate b a).
Proof.
  unfold Box.valid, Box.rotate. intros [Hx Hy].
  destruct (_ =? _)%Z; cbn [Box.x0 Box.x1 Box.y0 Box.y1]; [|tauto].
  unfold Qdiv. change (/ 2) with (1 # 2).
  split; lra.
Qed.

Lemma translate_valid b x y : Box.valid b -> Box.valid (Box.translate b x y).
Proof. unfold Box.valid, Box.translate. simpl. lra. Qed.

Lemma interior_pts b x y : Box.valid b -> Box.interior b x y -> Box.pts b x y.
Proof. unfold Box.interior, Box.pts. lra. Qed.

Lemma area_pos b : Box.valid b -> 0 < Box.area b.
Proof.
  unfold Box.valid, Box.area. intros [Hx Hy].
  apply Qmult_lt_0_compat; lra.
Qed.

End BoxFacts.

(** ** Areas of rectangles by counting cells *)

Module CellFacts.

Import Cells.

Lemma in_zrange a b i : In i (zrange a b) <-> (a <= i < b)%Z.
Proof.
  unfold zrange. rewrite in_map_iff. split.
  - intros [n [<- Hn]]. apply in_seq in Hn. lia.
  - intros H. exists (Z.to_nat (i - a)). split; [lia|]. apply in_seq. lia.
Qed.

Lemma NoDup_zrange a b : NoDup (zrange a b).
Proof.
  unfold zrange. apply NoDup_map_NoDup_ForallPairs; [|apply seq_NoDup].
  intros n m _ _ H. lia.
Qed.

Lemma length_zrange a b : (a <= b)%Z -> Z.of_nat (List.length (zrange a b)) = (b - a)%Z.
Proof. intros H. unfold zrange. rewrite length_map, length_seq. lia. Qed.

Lemma NoDup_list_prod {A B : Type} (l : list A) (l' : list B) :
  NoDup l -> NoDup l' -> NoDup (list_prod l l').
Proof.
  intros Hl Hl'. induction Hl as [|a l Ha Hl IH]; simpl; [constructor|].
  apply NoDup_app.
  - apply NoDup_map_NoDup_ForallPairs; [|exact Hl'].
    intros x y _ _ [= ->]. reflexivity.
  - exact IH.
  - intros [x y] H1 H2. apply in_map_iff in H1. destruct H1 as [y' [[= <- <-] _]].
    apply in_prod_iff in H2. tauto.
Qed.

Lemma in_cells b i j :
  In (i, j) (cells b) <->
  let '(x0, y0, x1, y1) := b in (x0 <= i < x1)%Z /\ (y0 <= j < y1)%Z.
Proof.
  destruct b as [[[x0 y0] x1] y1]. unfold cells.
  rewrite in_prod_iff, !in_zrange. reflexivity.
Qed.

Lemma NoDup_cells b : NoDup (cells b).
Proof.
  destruct b as [[[x0 y0] x1] y1]. apply NoDup_list_prod; apply NoDup_zrange.
Qed.

Lemma length_cells b : wf b -> Z.of_nat (List.length (cells b)) = zarea b.
Proof.
  destruct b as [[[x0 y0] x1] y1]. intros [Hx Hy]. unfold cells, zarea.
  rewrite length_prod, Nat2Z.inj_mul, !length_zrange by assumption. reflexivity.
Qed.

(** Rectangles without a common cell, all within [c], have no more cells
    together than [c]. *)
Lemma cells_packing c l :
  wf c -> Forall wf l ->
  Forall (fun b => incl (cells b) (cells c)) l ->
  ForallOrdPairs (fun a b => forall p, In p (cells a) -> ~ In p (cells b)) l ->
  (fold_right (fun b acc => zarea b + acc) 0 l <= zarea c)%Z.
Proof.
  intros Hc Hl Hin Hdis.
  assert (Hlen : fold_right (fun b acc => zarea b + acc)%Z 0%Z l =
                 Z.of_nat (List.length (List.concat (map cells l)))).
  { clear Hin Hdis. induction Hl as [|b l Hb Hl IH]; simpl; [reflexivity|].
    rewrite length_app, Nat2Z.inj_add, length_cells, IH by exact Hb.
    reflexivity. }
  rewrite Hlen, <- (length_cells c Hc). apply inj_le.
  apply NoDup_incl_length.
  - apply NoDup_concat.
    + apply Forall_map. apply Forall_forall. intros b _. apply NoDup_cells.
    + clear -Hdis. induction Hdis as [|a l Ha Hdis IH]; simpl; constructor.
      * apply Forall_map. exact Ha.
      * exact IH.
  - intros p Hp. apply in_concat in Hp. destruct Hp as [cs [Hcs Hp]].
    apply in_map_iff in Hcs. destruct Hcs as [b [<- Hb]].
    rewrite Forall_forall in Hin. exact (Hin b Hb p Hp).
Qed.

End CellFacts.

(** ** Rational rectangles on a common grid *)

Module ScaleFacts.

Import Cells.

Lemma common_den_fits qs q : In q qs -> fits (common_den qs) q.
Proof.
  unfold fits. induction qs as [|q' qs IH]; simpl; [tauto|].
  intros [->|Hin]; rewrite Pos2Z.inj_mul.
  - apply Z.divide_factor_l.
  - apply Z.divide_mul_r. apply IH. exact Hin.
Qed.

Lemma scale_spec D q :
  fits D q -> inject_Z (scale D q) == q * inject_Z (Z.pos D).
Proof.
  unfold fits, scale. intros [k Hk]. rewrite Hk, Z.div_mul by discriminate.
  destruct q as [n d]. unfold Qeq, Qmult, inject_Z. cbn [Qnum Qden].
  rewrite Pos2Z.inj_mul. ring.
Qed.

Lemma den_pos (D : positive) : 0 < inject_Z (Z.pos D).
Proof. unfold Qlt. simpl. lia. Qed.

Lemma scale_le D p q :
  fits D p -> fits D q -> (p <= q <-> (scale D p <= scale D q)%Z).
Proof.
  intros Hp Hq. rewrite Zle_Qle, !scale_spec by assumption.
  symmetry. apply Qmult_le_r. apply den_pos.
Qed.

Lemma scale_lt D p q :
  fits D p -> fits D q -> (p < q <-> (scale D p < scale D q)%Z).
Proof.
  intros Hp Hq. rewrite Zlt_Qlt, !scale_spec by assumption.
  symmetry. apply Qmult_lt_r. apply den_pos.
Qed.

Lemma below_centre D q i :
  fits D q -> (scale D q <= i)%Z -> q < centre D i.
Proof.
  intros Hq Hi. unfold centre. apply Qlt_shift_div_l; [apply den_pos|].
  rewrite <- scale_spec by exact Hq. rewrite Zle_Qle in Hi. lra.
Qed.

Lemma above_centre D q i :
  fits D q -> (i < scale D q)%Z -> centre D i < q.
Proof.
  intros Hq Hi. unfold centre. apply Qlt_shift_div_r; [apply den_pos|].
  rewrite <- scale_spec by exact Hq.
  assert (H : (i + 1 <= scale D q)%Z) by lia.
  rewrite Zle_Qle, inject_Z_plus in H. change (inject_Z 1) with 1 in H. lra.
Qed.

Lemma fits_box_coords D b :
  fits_box D b ->
  fits D (Box.x0 b) /\ fits D (Box.y0 b) /\ fits D (Box.x1 b) /\ fits D (Box.y1 b).
Proof.
  unfold fits_box, coords. intros H.
  repeat (apply Forall_cons_iff in H; destruct H as [? H]). tauto.
Qed.

Lemma scale_box_wf D b : fits_box D b -> Box.valid b -> wf (scale_box D b).
Proof.
  intros Hf [Hx Hy]. apply fits_box_coords in Hf. destruct Hf as (?&?&?&?).
  unfold wf, scale_box. split; apply scale_le; try assumption; lra.
Qed.

Lemma scale_box_area D b :
  fits_box D b ->
  inject_Z (zarea (scale_box D b)) ==
  Box.area b * (inject_Z (Z.pos D) * inject_Z (Z.pos D)).
Proof.
  intros Hf. apply fits_box_coords in Hf. destruct Hf as (?&?&?&?).
  unfold zarea, scale_box, Box.area.
  rewrite inject_Z_mult. unfold Z.sub.
  rewrite !inject_Z_plus, !inject_Z_opp, !scale_spec by assumption. ring.
Qed.

Lemma scale_box_incl D c b :
  fits_box D c -> fits_box D b -> Box.valid b ->
  (forall x y, Box.pts b x y -> Box.pts c x y) ->
  incl (cells (scale_box D b)) (cells (scale_box D c)).
Proof.
  intros Hc Hb Hv Hsub.
  destruct (BoxFacts.subset_corners c b Hv Hsub) as [[Hx0 Hx1] [Hy0 Hy1]].
  apply fits_box_coords in Hc. destruct Hc as (?&?&?&?).
  apply fits_box_coords in Hb. destruct Hb as (?&?&?&?).
  rewrite (scale_le D) in Hx0, Hx1, Hy0, Hy1 by assumption.
  intros [i j]. rewrite !CellFacts.in_cells. unfold scale_box. lia.
Qed.

Lemma scale_box_apart D a b :
  fits_box D a -> fits_box D b ->
  (forall x y, ~ (Box.interior a x y /\ Box.interior b x y)) ->
  forall p, In p (cells (scale_box D a)) -> ~ In p (cells (scale_box D b)).
Proof.
  intros Ha Hb Hdis [i j]. rewrite !CellFacts.in_cells. unfold scale_box.
  intros [[Ha1 Ha2] [Ha3 Ha4]] [[Hb1 Hb2] [Hb3 Hb4]].
  apply fits_box_coords in Ha. destruct Ha as (?&?&?&?).
  apply fits_box_coords in Hb. destruct Hb as (?&?&?&?).
  apply (Hdis (centre D i) (centre D j)). unfold Box.interior.
  repeat split;
    first [ apply below_centre; assumption | apply above_centre; assumption ].
Qed.

End ScaleFacts.

Lemma total_shape_area_sum g (l : list (Polygon g)) :
  total_shape_area g l == fold_right (fun p acc => area p + acc) 0 l.
Proof.
  unfold total_shape_area.
  assert (H : forall a, fold_left (fun acc shape => acc + area shape) l a ==
                        a + fold_right (fun p acc => area p + acc) 0 l).
  { induction l as [|p l IH]; intros a; simpl; [ring|]. rewrite IH. ring. }
  rewrite H. ring.
Qed.

Lemma sum_of_areas_fold g (l : list (Polygon g)) :
  sum_of_areas l = fold_right (fun p acc => area p + acc) 0 l.
Proof.
  unfold sum_of_areas. induction l as [|p l IH]; simpl; [reflexivity|].
  rewrite IH. reflexivity.
Qed.

(** The loop of the program adds up the areas of the shapes. *)
Lemma total_shape_area_is_sum g (l : list (Polygon g)) :
  total_shape_area g l == sum_of_areas l.
Proof. rewrite sum_of_areas_fold. apply total_shape_area_sum. Qed.

Module BoxPacking.

Import Cells ScaleFacts.

Lemma fits_all c l :
  let D := common_den (flat_map coords (c :: l)) in
  fits_box D c /\ Forall (fits_box D) l.
Proof.
  intros D.
  assert (H : forall b, In b (c :: l) -> fits_box D b).
  { intros b Hb. unfold fits_box. apply Forall_forall. intros q Hq.
    apply common_den_fits. apply in_flat_map. exists b. split; assumption. }
  split; [apply H; left; reflexivity|].
  apply Forall_forall. intros b Hb. apply H. right. exact Hb.
Qed.

Lemma sum_scaled D l :
  Forall (fits_box D) l ->
  inject_Z (fold_right (fun b acc => zarea b + acc)%Z 0%Z (map (scale_box D) l)) ==
  fold_right (fun b acc => Box.area b + acc) 0 l *
  (inject_Z (Z.pos D) * inject_Z (Z.pos D)).
Proof.
  induction 1 as [|b l Hb Hl IH]; cbn [map fold_right]; [ring|].
  rewrite inject_Z_plus, IH, scale_box_area by exact Hb. ring.
Qed.

Lemma cells_packing_scaled D c l :
  fits_box D c -> Forall (fits_box D) l ->
  Box.valid c -> Forall Box.valid l ->
  Forall (fun p => forall x y, Box.pts p x y -> Box.pts c x y) l ->
  ForallOrdPairs
    (fun a b => forall x y, ~ (Box.interior a x y /\ Box.interior b x y)) l ->
  (fold_right (fun b acc => zarea b + acc) 0 (map (scale_box D) l)
   <= zarea (scale_box D c))%Z.
Proof.
  intros Fc Fl Hc Hl Hsub Hdis.
  apply CellFacts.cells_packing.
  - apply scale_box_wf; assumption.
  - apply Forall_map. apply Forall_forall. intros b Hb.
    rewrite Forall_forall in Fl, Hl. apply scale_box_wf; auto.
  - apply Forall_map. apply Forall_forall. intros b Hb.
    rewrite Forall_forall in Fl, Hl, Hsub.
    apply scale_box_incl; [exact Fc | auto | auto | exact (Hsub b Hb)].
  - clear Hl Hsub.
    induction Hdis as [|a l Ha Hdis IH]; simpl; constructor.
    + apply Forall_map. apply Forall_forall. intros b Hb.
      rewrite Forall_forall in Ha, Fl.
      apply scale_box_apart.
      * apply Fl. left. reflexivity.
      * apply Fl. right. exact Hb.
      * apply Ha. exact Hb.
    + apply IH. exact (Forall_inv_tail Fl).
Qed.

(** Rectangles within [c] with pairwise disjoint interiors have at most the
    area of [c] together. *)
Lemma area_packing c l :
  Box.valid c -> Forall Box.valid l ->
  Forall (fun p => forall x y, Box.pts p x y -> Box.pts c x y) l ->
  ForallOrdPairs
    (fun a b => forall x y, ~ (Box.interior a x y /\ Box.interior b x y)) l ->
  @sum_of_areas Box.geometry l <= Box.area c.
Proof.
  intros Hc Hl Hsub Hdis.
  destruct (fits_all c l) as [Fc Fl].
  pose proof (cells_packing_scaled _ c l Fc Fl Hc Hl Hsub Hdis) as Hz.
  rewrite Zle_Qle, sum_scaled, scale_box_area in Hz by assumption.
  rewrite sum_of_areas_fold.
  apply Qmult_le_r in Hz; [exact Hz|].
  apply Qmult_lt_0_compat; apply den_pos.
Qed.

End BoxPacking.

(** The laws hold of the rectangles. *)
Lemma Box_laws : GeometryLaws Box.geometry.
Proof.
  exact (Build_GeometryLaws Box.geometry Box.valid Box.pts Box.interior
           BoxFacts.rotate_valid BoxFacts.translate_valid BoxFacts.interior_pts
           BoxFacts.contains_spec BoxFacts.intersects_spec BoxFacts.area_pos
           BoxPacking.area_packing).
Defined.

(** ** What the sweep guarantees under the laws *)

Lemma FOP_nth {A : Type} (R : A -> A -> Prop) l :
  ForallOrdPairs R l ->
  forall i j a b, (i < j)%nat ->
    nth_error l i = Some a -> nth_error l j = Some b -> R a b.
Proof.
  induction 1 as [|x l Hx Hl IH]; intros i j a b Hij Hi Hj.
  - destruct i; discriminate.
  - destruct j as [|j]; [lia|]. simpl in Hj. destruct i as [|i]; simpl in Hi.
    + injection Hi as <-. rewrite Forall_forall in Hx. apply Hx.
      eapply nth_error_In. exact Hj.
    + apply (IH i j); [lia | assumption | assumption].
Qed.

Section LawFacts.

Variable g : Geometry.
Variable L : GeometryLaws g.

Lemma placed_valid (container shape : Polygon g) placed :
  valid L shape -> placed_ok container shape placed -> Forall (valid L) placed.
Proof.
  intros Hs [_ _ Hc]. rewrite Forall_forall in *. intros p Hp.
  destruct (Hc p Hp) as [a [x [y ->]]].
  apply translate_valid. apply rotate_valid. exact Hs.
Qed.

Lemma not_intersects_apart (a b : Polygon g) :
  valid L a -> valid L b -> intersects a b = false ->
  forall x y, ~ (pts L a x y /\ pts L b x y).
Proof.
  intros Ha Hb Hi x y H.
  assert (E : intersects a b = true).
  { apply (intersects_spec L a b Ha Hb). exists x, y. exact H. }
  congruence.
Qed.

Lemma intersects_sym (a b : Polygon g) :
  valid L a -> valid L b -> intersects a b = intersects b a.
Proof.
  intros Ha Hb.
  destruct (intersects a b) eqn:E1, (intersects b a) eqn:E2; try reflexivity.
  - apply (intersects_spec L a b Ha Hb) in E1. destruct E1 as [x [y [H1 H2]]].
    exfalso. apply (not_intersects_apart b a Hb Ha E2 x y). tauto.
  - apply (intersects_spec L b a Hb Ha) in E2. destruct E2 as [x [y [H1 H2]]].
    exfalso. apply (not_intersects_apart a b Ha Hb E1 x y). tauto.
Qed.

(** Two shapes at different positions of the list do not intersect. *)
Lemma placed_apart (container shape : Polygon g) placed :
  valid L shape -> placed_ok container shape placed ->
  forall i j p q, i <> j ->
    nth_error placed i = Some p -> nth_error placed j = Some q ->
    intersects p q = false.
Proof.
  intros Hs Hok i j p q Hij Hi Hj.
  pose proof (placed_valid container shape placed Hs Hok) as Hv.
  rewrite Forall_forall in Hv.
  assert (Hp : valid L p) by (apply Hv; eapply nth_error_In; exact Hi).
  assert (Hq : valid L q) by (apply Hv; eapply nth_error_In; exact Hj).
  destruct (Nat.lt_ge_cases i j) as [Hlt|Hge].
  - rewrite (intersects_sym p q Hp Hq).
    exact (FOP_nth _ placed (ok_apart Hok) i j p q Hlt Hi Hj).
  - assert (Hlt : (j < i)%nat) by lia.
    exact (FOP_nth _ placed (ok_apart Hok) j i q p Hlt Hj Hi).
Qed.

Lemma FOP_impl_in {A : Type} (R R' : A -> A -> Prop) (P : A -> Prop) l :
  Forall P l -> (forall a b, P a -> P b -> R a b -> R' a b) ->
  ForallOrdPairs R l -> ForallOrdPairs R' l.
Proof.
  intros HP Himp H. induction H as [|a l Ha Hl IH]; constructor.
  - inversion HP; subst. rewrite Forall_forall in *. intros b Hb. auto.
  - apply IH. inversion HP; assumption.
Qed.

(** The placed shapes cover at most the container. *)
Lemma placed_area_le (container shape : Polygon g) placed :
  valid L container -> valid L shape -> placed_ok container shape placed ->
  total_shape_area g placed <= area container.
Proof.
  intros Hc Hs Hok.
  pose proof (placed_valid container shape placed Hs Hok) as Hv.
  rewrite total_shape_area_is_sum.
  apply (area_packing L); try assumption.
  - pose proof (ok_contained Hok) as Hin.
    rewrite Forall_forall in *. intros p Hp.
    apply (contains_spec L container p Hc (Hv p Hp)). apply Hin. exact Hp.
  - apply (FOP_impl_in (fun a b => intersects b a = false) _ (valid L) placed Hv).
    + intros a b Ha Hb Hi x y [H1 H2].
      apply (not_intersects_apart b a Hb Ha Hi x y).
      split; apply interior_pts; assumption.
    + exact (ok_apart Hok).
Qed.

Lemma total_shape_area_pos (placed : list (Polygon g)) :
  Forall (valid L) placed -> placed <> [] -> 0 < total_shape_area g placed.
Proof.
  intros Hv Hne. rewrite total_shape_area_sum.
  destruct Hv as [|p l Hp Hl]; [congruence|]. simpl.
  assert (H0 : 0 <= fold_right (fun p acc => area p + acc) 0 l).
  { clear Hne. induction Hl as [|q l Hq Hl IH]; simpl; [lra|].
    pose proof (area_pos L q Hq). lra. }
  pose proof (area_pos L p Hp). lra.
Qed.

End LawFacts.

(** * The claims *)

Lemma positive_nonzero (q : Q) : 0 < q -> ~ q == 0.
Proof. intros H E. rewrite E in H. apply (Qlt_irrefl 0). exact H. Qed.

(** C1, containment invariant: for a well-formed container and base shape
    and a positive grid step, [place_shapes] returns a list, and the
    container contains every polygon of it: [contains] holds, and every
    point of the polygon is a point of the container. *)
Theorem place_shapes_contained (g : Geometry) (L : GeometryLaws g)
        (container shape : Polygon g) (angles : list Z) (grid_step : Q) :
  valid L container -> valid L shape -> 0 < grid_step ->
  exists placed,
    place_shapes g container shape angles grid_step = Some placed /\
    Forall (fun p => contains container p = true /\
                     forall x y, pts L p x y -> pts L container x y) placed.
Proof.
  intros Hc Hs Hstep.
  destruct (place_shapes_total g container shape angles grid_step
              (positive_nonzero _ Hstep)) as [placed Hrun].
  exists placed. split; [exact Hrun|].
  pose proof (place_shapes_ok g _ _ _ _ _ Hrun) as Hok.
  pose proof (placed_valid g L _ _ _ Hs Hok) as Hv.
  pose proof (ok_contained Hok) as Hin.
  rewrite Forall_forall in *. intros p Hp. split; [apply Hin; exact Hp|].
  apply (contains_spec L container p Hc (Hv p Hp)). apply Hin. exact Hp.
Qed.

Lemma place_shapes_contained_witness :
  (valid Box_laws container_10x10 /\ valid Box_laws unit_square /\ 0 < 1) /\
  exists placed,
    place_shapes Box.geometry container_10x10 unit_square
                 [0; 90; 180; 270]%Z 1 = Some placed /\
    Forall (fun p : Box.t =>
              Box.contains container_10x10 p = true /\
              forall x y, Box.pts p x y -> Box.pts container_10x10 x y) placed.
Proof.
  assert (Hc : valid Box_laws container_10x10) by (split; reflexivity).
  assert (Hs : valid Box_laws unit_square) by (split; reflexivity).
  assert (Hstep : 0 < 1) by reflexivity.
  split; [tauto|].
  exact (place_shapes_contained Box.geometry Box_laws container_10x10
           unit_square [0; 90; 180; 270]%Z 1 Hc Hs Hstep).
Defined.

(** C2, non-overlap invariant: in the list [place_shapes] returns, the
    interiors of two polygons at different positions have no point in
    common. *)
Theorem place_shapes_interiors_disjoint (g : Geometry) (L : GeometryLaws g)
        (container shape : Polygon g) (angles : list Z) (grid_step : Q) :
  valid L container -> valid L shape -> 0 < grid_step ->
  exists placed,
    place_shapes g container shape angles grid_step = Some placed /\
    forall i j p q, i <> j ->
      nth_error placed i = Some p -> nth_error placed j = Some q ->
      forall x y, ~ (interior L p x y /\ interior L q x y).
Proof.
  intros Hc Hs Hstep.
  destruct (place_shapes_total g container shape angles grid_step
              (positive_nonzero _ Hstep)) as [placed Hrun].
  exists placed. split; [exact Hrun|].
  pose proof (place_shapes_ok g _ _ _ _ _ Hrun) as Hok.
  pose proof (placed_valid g L _ _ _ Hs Hok) as Hv.
  rewrite Forall_forall in Hv.
  intros i j p q Hij Hi Hj x y [Hp Hq].
  assert (Vp : valid L p) by (apply Hv; eapply nth_error_In; exact Hi).
  assert (Vq : valid L q) by (apply Hv; eapply nth_error_In; exact Hj).
  apply (not_intersects_apart g L p q Vp Vq
           (placed_apart g L _ _ _ Hs Hok i j p q Hij Hi Hj) x y).
  split; apply interior_pts; assumption.
Qed.

Lemma place_shapes_interiors_disjoint_witness :
  (valid Box_laws container_10x10 /\ valid Box_laws unit_square /\ 0 < 1) /\
  exists placed,
    place_shapes Box.geometry container_10x10 unit_square
                 [0; 90; 180; 270]%Z 1 = Some placed /\
    forall i j (p q : Box.t), i <> j ->
      nth_error placed i = Some p -> nth_error placed j = Some q ->
      forall x y, ~ (Box.interior p x y /\ Box.interior q x y).
Proof.
  assert (Hc : valid Box_laws container_10x10) by (split; reflexivity).
  assert (Hs : valid Box_laws unit_square) by (split; reflexivity).
  assert (Hstep : 0 < 1) by reflexivity.
  split; [tauto|].
  exact (place_shapes_interiors_disjoint Box.geometry Box_laws container_10x10
           unit_square [0; 90; 180; 270]%Z 1 Hc Hs Hstep).
Defined.

(** C10, strict pairwise disjointness: in the list [place_shapes] returns,
    two polygons at different positions do not intersect, so they have no
    point in common at all, not even a boundary point. *)
Theorem place_shapes_strictly_disjoint (g : Geometry) (L : GeometryLaws g)
        (container shape : Polygon g) (angles : list Z) (grid_step : Q) :
  valid L container -> valid L shape -> 0 < grid_step ->
  exists placed,
    place_shapes g container shape angles grid_step = Some placed /\
    forall i j p q, i <> j ->
      nth_error placed i = Some p -> nth_error placed j = Some q ->
      intersects p q = false /\
      forall x y, ~ (pts L p x y /\ pts L q x y).
Proof.
  intros Hc Hs Hstep.
  destruct (place_shapes_total g container shape angles grid_step
              (positive_nonzero _ Hstep)) as [placed Hrun].
  exists placed. split; [exact Hrun|].
  pose proof (place_shapes_ok g _ _ _ _ _ Hrun) as Hok.
  pose proof (placed_valid g L _ _ _ Hs Hok) as Hv.
  rewrite Forall_forall in Hv.
  intros i j p q Hij Hi Hj.
  assert (Vp : valid L p) by (apply Hv; eapply nth_error_In; exact Hi).
  assert (Vq : valid L q) by (apply Hv; eapply nth_error_In; exact Hj).
  pose proof (placed_apart g L _ _ _ Hs Hok i j p q Hij Hi Hj) as Hapart.
  split; [exact Hapart|].
  exact (not_intersects_apart g L p q Vp Vq Hapart).
Qed.

Lemma place_shapes_strictly_disjoint_witness :
  (valid Box_laws container_10x10 /\ valid Box_laws unit_square /\ 0 < 1) /\
  exists placed,
    place_shapes Box.geometry container_10x10 unit_square
                 [0; 90; 180; 270]%Z 1 = Some placed /\
    forall i j (p q : Box.t), i <> j ->
      nth_error placed i = Some p -> nth_error placed j = Some q ->
      Box.intersects p q = false /\
      forall x y, ~ (Box.pts p x y /\ Box.pts q x y).
Proof.
  assert (Hc : valid Box_laws container_10x10) by (split; reflexivity).
  assert (Hs : valid Box_laws unit_square) by (split; reflexivity).
  assert (Hstep : 0 < 1) by reflexivity.
  split; [tauto|].
  exact (place_shapes_strictly_disjoint Box.geometry Box_laws container_10x10
           unit_square [0; 90; 180; 270]%Z 1 Hc Hs Hstep).
Defined.

Lemma no_intersection_forallb (g : Geometry) (candidate : Polygon g) placed :
  no_intersection g candidate placed =
  forallb (fun e => negb (intersects candidate e)) placed.
Proof.
  induction placed as [|e placed IH]; simpl; [reflexivity|].
  rewrite IH. destruct (intersects candidate e); reflexivity.
Qed.

Lemma forallb_permutation {A : Type} (f : A -> bool) l l' :
  Permutation l l' -> forallb f l = forallb f l'.
Proof.
  induction 1 as [|a l l' _ IH|a b l|l l' l'' _ IH1 _ IH2]; simpl.
  - reflexivity.
  - rewrite IH. reflexivity.
  - destruct (f a), (f b); reflexivity.
  - congruence.
Qed.

(** C3, placement predicate: [can_place] answers [False] when some point of
    the candidate is not a point of the container (a candidate all of whose
    points, boundary included, are points of the closed container is
    contained), [False] when the candidate shares a point with any placed
    polygon, whatever the order of the list, and [True] otherwise; the list
    it was given is unchanged afterwards. *)
Theorem can_place_correct (g : Geometry) (L : GeometryLaws g)
        (candidate container : Polygon g) (placed : list (Polygon g)) :
  valid L candidate -> valid L container -> Forall (valid L) placed ->
  let inside := forall x y, pts L candidate x y -> pts L container x y in
  let meets e := exists x y, pts L candidate x y /\ pts L e x y in
  let answer := fst (can_place g candidate container placed) in
  (~ inside -> answer = false) /\
  ((exists e, In e placed /\ meets e) -> answer = false) /\
  (inside -> (forall e, In e placed -> ~ meets e) -> answer = true) /\
  answer = (contains container candidate &&
            forallb (fun e => negb (intersects candidate e)) placed) /\
  (forall placed', Permutation placed placed' ->
     fst (can_place g candidate container placed') = answer) /\
  snd (can_place g candidate container placed) = placed.
Proof.
  intros Hcand Hcont Hpl inside meets answer. subst answer.
  rewrite Forall_forall in Hpl.
  pose proof (contains_spec L container candidate Hcont Hcand) as Hin.
  fold inside in Hin.
  repeat split.
  - intros Hout. rewrite can_place_fst.
    destruct (contains container candidate); [|reflexivity].
    exfalso. apply Hout. apply Hin. reflexivity.
  - intros [e [He Hm]]. rewrite can_place_fst. apply andb_false_iff. right.
    apply no_intersection_false. apply Exists_exists. exists e.
    split; [exact He|].
    apply (intersects_spec L candidate e Hcand (Hpl e He)). exact Hm.
  - intros Hins Hno. apply can_place_true. split; [apply Hin; exact Hins|].
    apply Forall_forall. intros e He.
    destruct (intersects candidate e) eqn:E; [|reflexivity].
    exfalso. apply (Hno e He).
    apply (intersects_spec L candidate e Hcand (Hpl e He)). exact E.
  - rewrite can_place_fst, no_intersection_forallb. reflexivity.
  - intros placed' Hperm. rewrite !can_place_fst, !no_intersection_forallb.
    rewrite (forallb_permutation _ _ _ Hperm). reflexivity.
  - apply can_place_snd.
Qed.

Lemma can_place_correct_witness :
  (valid Box_laws (Box.mk 9 9 10 10) /\ valid Box_laws container_10x10 /\
   Forall (valid Box_laws) [unit_square]) /\
  fst (can_place Box.geometry (Box.mk 9 9 10 10) container_10x10 [unit_square])
  = true.
Proof.
  assert (Hcand : valid Box_laws (Box.mk 9 9 10 10)) by (split; reflexivity).
  assert (Hcont : valid Box_laws container_10x10) by (split; reflexivity).
  assert (Hpl : Forall (valid Box_laws) [unit_square]).
  { constructor; [split; reflexivity | constructor]. }
  split; [tauto|].
  pose proof (can_place_correct Box.geometry Box_laws (Box.mk 9 9 10 10)
                container_10x10 [unit_square] Hcand Hcont Hpl) as H.
  destruct H as (_ & _ & _ & H & _). rewrite H. reflexivity.
Defined.

(** C4 as stated fails: scenario 1 does not place 100 squares, and the
    utilization is not 100%. *)
Lemma scenario1_not_100_squares :
  ~ (exists placed u,
        scenario1 = Some placed /\
        utilization_percentage Box.geometry placed container_10x10 = Some u /\
        List.length placed = 100%nat /\ u == 100).
Proof.
  intros (placed & u & Hrun & _ & Hlen & _).
  vm_compute in Hrun. injection Hrun as <-. discriminate Hlen.
Qed.

(** C4, amended: scenario 1 (unit square, container 10 by 10, grid step 1,
    angle 0) places exactly 25 unit squares, the ones at the anchors with
    both coordinates even, no two of which intersect, and the utilization
    is 25%: a square that touches a placed one is rejected. *)
Theorem scenario1_places_25_squares :
  exists placed u,
    scenario1 = Some placed /\
    utilization_percentage Box.geometry placed container_10x10 = Some u /\
    List.length placed = 25%nat /\
    placed = even_squares /\
    ForallOrdPairs (fun a b => Box.intersects b a = false) placed /\
    u == 25.
Proof.
  exists even_squares. eexists.
  split; [vm_compute; reflexivity|].
  split; [vm_compute; reflexivity|].
  split; [reflexivity|]. split; [reflexivity|].
  split; [|reflexivity].
  assert (Hrun : scenario1 = Some even_squares) by (vm_compute; reflexivity).
  exact (ok_apart (place_shapes_ok Box.geometry _ _ _ _ _ Hrun)).
Qed.

(** ** The utilization figure *)

Section UtilizationFacts.

Variable g : Geometry.
Variable L : GeometryLaws g.

Lemma utilization_percentage_defined (placed : list (Polygon g)) container :
  valid L container ->
  utilization_percentage g placed container =
  Some ((total_shape_area g placed / area container) * 100).
Proof.
  intros Hc. unfold utilization_percentage.
  destruct (Qeq_bool (area container) 0) eqn:E; [|reflexivity].
  apply Qeq_bool_iff in E. pose proof (area_pos L container Hc) as Hpos.
  rewrite E in Hpos. exfalso. exact (Qlt_irrefl 0 Hpos).
Qed.

Lemma percentage_bounds (t a : Q) :
  0 < a -> 0 <= t -> t <= a -> 0 <= t / a * 100 /\ t / a * 100 <= 100.
Proof.
  intros Ha Ht Hta.
  assert (H0 : 0 <= t / a) by (apply Qle_shift_div_l; [exact Ha | lra]).
  assert (H1 : t / a <= 1) by (apply Qle_shift_div_r; [exact Ha | lra]).
  split; lra.
Qed.

Lemma percentage_positive (t a : Q) : 0 < a -> 0 < t -> 0 < t / a * 100.
Proof.
  intros Ha Ht.
  assert (H0 : 0 < t / a) by (apply Qlt_shift_div_l; [exact Ha | lra]).
  lra.
Qed.

Lemma utilization_of_run (container shape : Polygon g) placed :
  valid L container -> valid L shape -> placed_ok container shape placed ->
  let u := (total_shape_area g placed / area container) * 100 in
  utilization_percentage g placed container = Some u /\
  0 <= u /\ u <= 100 /\ (u == 0 <-> placed = []).
Proof.
  intros Hc Hs Hok u. subst u.
  pose proof (area_pos L container Hc) as Ha.
  pose proof (placed_valid g L _ _ _ Hs Hok) as Hv.
  pose proof (placed_area_le g L _ _ _ Hc Hs Hok) as Hle.
  split; [apply utilization_percentage_defined; exact Hc|].
  destruct placed as [|p placed].
  - assert (H0 : total_shape_area g [] == 0) by reflexivity.
    destruct (percentage_bounds (total_shape_area g []) (area container) Ha)
      as [Hlo Hhi]; [lra | exact Hle |].
    split; [exact Hlo|]. split; [exact Hhi|]. split; [reflexivity|].
    intros _. rewrite H0. unfold Qdiv. ring.
  - assert (Hpos : 0 < total_shape_area g (p :: placed))
      by (apply total_shape_area_pos with (L := L); [exact Hv | discriminate]).
    destruct (percentage_bounds _ (area container) Ha (Qlt_le_weak _ _ Hpos) Hle)
      as [Hlo Hhi].
    pose proof (percentage_positive _ _ Ha Hpos) as Hu.
    split; [exact Hlo|]. split; [exact Hhi|]. split.
    + intros E. rewrite E in Hu. exfalso. exact (Qlt_irrefl 0 Hu).
    + discriminate.
Qed.

End UtilizationFacts.

(** C5 as stated fails: on a container of area 0 nothing is placed, and yet
    no utilization of 0 is reported: the division of the efficiency
    calculation raises, and the call ends in that exception. *)
Lemma utilization_not_reported_on_flat_container :
  place_shapes Box.geometry flat_container unit_square [0; 90; 180; 270]%Z 10
    = Some [] /\
  utilization_percentage Box.geometry [] flat_container = None /\
  draw_full_convex_hull Box.geometry hull_of_square
    [(0, 0); (1, 0); (1, 1); (0, 1)] 0 200 = Raised /\
  ~ (exists container placed u,
       draw_full_convex_hull Box.geometry hull_of_square
         [(0, 0); (1, 0); (1, 1); (0, 1)] 0 200 =
         @Shown Box.geometry container placed u /\
       (placed = [] -> u == 0)).
Proof.
  assert (Hdraw : draw_full_convex_hull Box.geometry hull_of_square
                    [(0, 0); (1, 0); (1, 1); (0, 1)] 0 200 = Raised)
    by (vm_compute; reflexivity).
  split; [vm_compute; reflexivity|]. split; [vm_compute; reflexivity|].
  split; [exact Hdraw|].
  intros (container & placed & u & Hshown & _).
  rewrite Hdraw in Hshown. discriminate Hshown.
Qed.

(** C5, amended: a call of [draw_full_convex_hull] on at least three points
    whose hull and container are well formed, the container therefore of
    positive area, draws the layout [place_shapes] returns and reports the
    sum of the areas of the placed shapes divided by the area of the
    container, times 100; the figure lies between 0 and 100, is 0 when
    nothing was placed, and only then. *)
Theorem utilization_reported (g : Geometry) (L : GeometryLaws g)
        (ConvexHull : list Point2D -> option (list nat))
        (points : list Point2D) (x_limit y_limit : Q) (vertices : list nat) :
  let shape : Polygon g :=
    Polygon_of (map (fun i => nth i points (0, 0)) vertices) in
  let container : Polygon g :=
    Polygon_of [(0, 0); (x_limit, 0); (x_limit, y_limit); (0, y_limit)] in
  (3 <= List.length points)%nat ->
  ConvexHull points = Some vertices ->
  valid L shape -> valid L container ->
  exists placed u,
    place_shapes g container shape [0; 90; 180; 270]%Z 10 = Some placed /\
    draw_full_convex_hull g ConvexHull points x_limit y_limit =
      Shown container placed u /\
    u == (sum_of_areas placed / area container) * 100 /\
    0 <= u /\ u <= 100 /\
    (placed = [] -> u == 0) /\ (u == 0 <-> placed = []).
Proof.
  intros shape container Hlen Hhull Hs Hc.
  assert (Hstep : ~ 10 == 0) by discriminate.
  destruct (place_shapes_total g container shape [0; 90; 180; 270]%Z 10 Hstep)
    as [placed Hrun].
  pose proof (place_shapes_ok g _ _ _ _ _ Hrun) as Hok.
  destruct (utilization_of_run g L container shape placed Hc Hs Hok)
    as (Hu & Hlo & Hhi & Hzero).
  exists placed, ((total_shape_area g placed / area container) * 100).
  split; [exact Hrun|]. split.
  - unfold draw_full_convex_hull.
    destruct (Nat.ltb_spec (List.length points) 3) as [Hlt|_]; [lia|].
    rewrite Hhull. unfold create_shapely_polygon.
    fold shape. fold container. rewrite Hrun, Hu. reflexivity.
  - split.
    { rewrite (total_shape_area_is_sum g placed). reflexivity. }
    split; [exact Hlo|]. split; [exact Hhi|].
    split; [apply Hzero | exact Hzero].
Qed.

Lemma utilization_reported_witness :
  (valid Box_laws unit_square /\ valid Box_laws container_10x10) /\
  exists placed u,
    draw_full_convex_hull Box.geometry hull_of_square
      [(0, 0); (1, 0); (1, 1); (0, 1)] 10 10 =
      @Shown Box.geometry container_10x10 placed u /\
    u == (@sum_of_areas Box.geometry placed / Box.area container_10x10) * 100 /\
    0 <= u /\ u <= 100 /\ (u == 0 <-> placed = []).
Proof.
  assert (Hlen : (3 <= List.length [(0, 0); (1, 0); (1, 1); (0, 1)])%nat)
    by (simpl; lia).
  assert (Hs : valid Box_laws unit_square) by (split; reflexivity).
  assert (Hc : valid Box_laws container_10x10) by (split; reflexivity).
  split; [split; assumption|].
  destruct (utilization_reported Box.geometry Box_laws hull_of_square
              [(0, 0); (1, 0); (1, 1); (0, 1)] 10 10 [0; 1; 2; 3]%nat
              Hlen eq_refl Hs Hc)
    as (placed & u & _ & Hdraw & Hsum & Hlo & Hhi & _ & Hzero).
  exists placed, u. split; [exact Hdraw|]. split; [exact Hsum|].
  split; [exact Hlo|]. split; [exact Hhi | exact Hzero].
Defined.

(** C6, insufficient-input rejection: with 0, 1 or 2 points
    [draw_full_convex_hull] reports the error that at least 3 points must be
    selected and returns at once: whatever the hull and geometry libraries
    would do, no container and no list of placed shapes come out of the
    call. *)
Theorem insufficient_points_rejected (g : Geometry)
        (ConvexHull : list Point2D -> option (list nat))
        (points : list Point2D) (x_limit y_limit : Q) :
  (List.length points < 3)%nat ->
  draw_full_convex_hull g ConvexHull points x_limit y_limit =
    ShowError "Error" "At least 3 points must be selected!" /\
  layout_of (draw_full_convex_hull g ConvexHull points x_limit y_limit) = None.
Proof.
  intros Hlen. unfold draw_full_convex_hull.
  destruct (Nat.ltb_spec (List.length points) 3) as [_|Hge]; [|lia].
  split; reflexivity.
Qed.

Lemma insufficient_points_rejected_witness :
  (List.length [(0, 0); (1, 0)] < 3)%nat /\
  draw_full_convex_hull Box.geometry hull_of_square [(0, 0); (1, 0)] 1000 200 =
    ShowError "Error" "At least 3 points must be selected!".
Proof.
  assert (Hlen : (List.length [(0, 0); (1, 0)] < 3)%nat) by (simpl; lia).
  split; [exact Hlen|].
  exact (proj1 (insufficient_points_rejected Box.geometry hull_of_square
                  [(0, 0); (1, 0)] 1000 200 Hlen)).
Defined.

(** ** One anchor, in the order of the angle list *)

Lemma find_on_keys {V : Type} (f : Z * V -> bool) (h : Z -> bool)
      (l : list (Z * V)) :
  Forall (fun kv => f kv = h (fst kv)) l ->
  option_map fst (find f l) = find h (map fst l).
Proof.
  induction 1 as [|kv l Hkv Hl IH]; simpl; [reflexivity|].
  rewrite Hkv. destruct (h (fst kv)); [reflexivity | exact IH].
Qed.

(** C7, per-anchor acceptance: at an anchor [(x, y)] the list becomes the
    list with the candidate of the first angle of the angle list, in the
    order of that list, whose rotated shape moved by [(x, y)] passes
    [can_place], appended at its end, and stays as it is when no angle
    passes; so at most one shape is placed per anchor, and [place_shapes]
    is this step at each anchor of the grid in turn. *)
Theorem anchor_places_first_accepted (g : Geometry)
        (container shape : Polygon g) (angles : list Z) (x y : Q)
        (placed : list (Polygon g)) :
  let items := Dict.items (create_rotated_shapes rotate shape angles) in
  let candidate a := translate (rotate shape a) x y in
  let passes a := fst (can_place g (candidate a) container placed) in
  place_at items container placed (x, y) =
    match find passes angles with
    | Some a => placed ++ [candidate a]
    | None => placed
    end /\
  (List.length (place_at items container placed (x, y))
   <= S (List.length placed))%nat /\
  forall grid_step,
    place_shapes g container shape angles grid_step =
    option_map (fun l => fold_left (place_at items container) l [])
               (anchors (bounds container) grid_step).
Proof.
  intros items candidate passes.
  assert (Hstep : place_at items container placed (x, y) =
            match find passes angles with
            | Some a => placed ++ [candidate a]
            | None => placed
            end).
  { unfold place_at. rewrite try_angles_find. simpl.
    pose proof (create_rotated_shapes_values (@rotate g) shape angles) as Hv.
    fold items in Hv.
    assert (Hacc : Forall (fun kv => accepts x y container placed kv
                                     = passes (fst kv)) items).
    { rewrite Forall_forall in *. intros kv Hkv.
      unfold accepts, passes, candidate. rewrite (Hv kv Hkv). reflexivity. }
    pose proof (find_on_keys _ _ _ Hacc) as Hfind.
    replace (map fst items)
      with (map fst (create_rotated_shapes rotate shape angles))
      in Hfind by reflexivity.
    rewrite (create_rotated_shapes_find (@rotate g) passes) in Hfind.
    destruct (find (accepts x y container placed) items) as [kv|] eqn:F;
      simpl in Hfind; rewrite <- Hfind; [|reflexivity].
    apply find_some in F. destruct F as [Hin _].
    rewrite Forall_forall in Hv. rewrite (Hv kv Hin). reflexivity. }
  split; [exact Hstep|]. split.
  - rewrite Hstep. destruct (find passes angles).
    + rewrite length_app. simpl. lia.
    + lia.
  - intros grid_step. apply place_shapes_anchors.
Qed.

(** ** The number of anchors *)





(** ** Rotation by no angle *)

Module RingFacts.

Import Ring.

Lemma eqv_refl (r : t) : eqv r r.
Proof. induction r; constructor; [split; reflexivity | assumption]. Qed.

Lemma edge_sum_eqv (f : Point2D -> Point2D -> Q) :
  (forall p p' q q', peq p p' -> peq q q' -> f p q == f p' q') ->
  forall l l', eqv l l' ->
  forall first first' prev prev', peq first first' -> peq prev prev' ->
    edge_sum f first prev l == edge_sum f first' prev' l'.
Proof.
  intros Hf l l' H. induction H as [|p p' l l' Hp Hl IH];
    intros first first' prev prev' Hfirst Hprev; simpl.
  - apply Hf; assumption.
  - rewrite (Hf prev prev' p p' Hprev Hp), (IH first first' p p' Hfirst Hp).
    reflexivity.
Qed.

Lemma over_edges_eqv (f : Point2D -> Point2D -> Q) :
  (forall p p' q q', peq p p' -> peq q q' -> f p q == f p' q') ->
  forall r r', eqv r r' -> over_edges f r == over_edges f r'.
Proof.
  intros Hf r r' H. destruct H as [|p p' l l' Hp Hl]; simpl; [reflexivity|].
  apply edge_sum_eqv; assumption.
Qed.

Lemma cross_peq p p' q q' : peq p p' -> peq q q' -> cross p q == cross p' q'.
Proof.
  intros [H1 H2] [H3 H4]. unfold cross. rewrite H1, H2, H3, H4. reflexivity.
Qed.

Lemma signed_area_eqv r r' : eqv r r' -> signed_area r == signed_area r'.
Proof.
  intros H. unfold signed_area.
  rewrite (over_edges_eqv cross cross_peq r r' H). reflexivity.
Qed.

Lemma area_eqv r r' : eqv r r' -> area r == area r'.
Proof. intros H. unfold area. rewrite (signed_area_eqv r r' H). reflexivity. Qed.

Lemma centroid_eqv r r' : eqv r r' -> peq (centroid r) (centroid r').
Proof.
  intros H. unfold centroid, peq. cbn [fst snd].
  rewrite (signed_area_eqv r r' H). split.
  - rewrite (over_edges_eqv (fun p q => (fst p + fst q) * cross p q)) with (r' := r');
      [reflexivity | | exact H].
    intros p p' q q' Hp Hq. rewrite (cross_peq p p' q q' Hp Hq).
    destruct Hp as [-> _], Hq as [-> _]. reflexivity.
  - rewrite (over_edges_eqv (fun p q => (snd p + snd q) * cross p q)) with (r' := r');
      [reflexivity | | exact H].
    intros p p' q q' Hp Hq. rewrite (cross_peq p p' q q' Hp Hq).
    destruct Hp as [_ ->], Hq as [_ ->]. reflexivity.
Qed.

Lemma rotate_point_zero (cosd sind : Z -> Q) c p :
  cosd 0%Z == 1 -> sind 0%Z == 0 -> peq (rotate_point cosd sind c 0 p) p.
Proof.
  intros Hc Hs. unfold rotate_point, peq. cbn [fst snd].
  rewrite Hc, Hs. split; ring.
Qed.

Lemma rotate_zero (cosd sind : Z -> Q) shape :
  cosd 0%Z == 1 -> sind 0%Z == 0 -> eqv (rotate cosd sind shape 0) shape.
Proof.
  intros Hc Hs. unfold rotate. generalize (centroid shape). intros c.
  induction shape as [|p shape IH]; simpl; constructor.
  - apply rotate_point_zero; assumption.
  - exact IH.
Qed.

End RingFacts.

Lemma create_rotated_shapes_get {P : Type} (rot : P -> Z -> P) shape angles a :
  In a angles ->
  Dict.get (create_rotated_shapes rot shape angles) a = Some (rot shape a).
Proof.
  induction angles as [|b angles IH] using rev_ind; [intros []|].
  intros Hin. rewrite create_rotated_shapes_snoc.
  destruct (Z.eq_dec b a) as [->|Hne].
  - apply dict_get_set_same.
  - rewrite dict_get_set_other by exact Hne. apply IH.
    apply in_app_or in Hin. destruct Hin as [Hin|[Hba|[]]]; [exact Hin|].
    contradiction.
Qed.

(** C8, rotation identity: whatever the base polygon, the entry of the
    rotation set for the angle 0 is the polygon rotated by 0 about its
    centroid, and it has the vertices of the base polygon, in the same
    order and with equal coordinates, hence the same area and the same
    centroid. *)
Theorem rotation_set_entry_zero (cosd sind : Z -> Q) (shape : Ring.t)
        (angles : list Z) :
  cosd 0%Z == 1 -> sind 0%Z == 0 -> In 0%Z angles ->
  exists entry,
    Dict.get (create_rotated_shapes (Ring.rotate cosd sind) shape angles) 0
      = Some entry /\
    Ring.eqv entry shape /\
    Ring.area entry == Ring.area shape /\
    Ring.peq (Ring.centroid entry) (Ring.centroid shape).
Proof.
  intros Hc Hs Hin. exists (Ring.rotate cosd sind shape 0).
  pose proof (RingFacts.rotate_zero cosd sind shape Hc Hs) as Heq.
  split; [apply create_rotated_shapes_get; exact Hin|].
  split; [exact Heq|].
  split; [apply RingFacts.area_eqv | apply RingFacts.centroid_eqv]; exact Heq.
Qed.

Lemma rotation_set_entry_zero_witness :
  (Ring.cosd_quarter 0 == 1 /\ Ring.sind_quarter 0 == 0 /\
   In 0%Z [0; 90; 180; 270]%Z) /\
  exists entry,
    Dict.get (create_rotated_shapes
                (Ring.rotate Ring.cosd_quarter Ring.sind_quarter)
                triangle [0; 90; 180; 270]%Z) 0 = Some entry /\
    Ring.eqv entry triangle /\
    Ring.area entry == Ring.area triangle /\
    Ring.peq (Ring.centroid entry) (Ring.centroid triangle).
Proof.
  assert (Hc : Ring.cosd_quarter 0 == 1) by reflexivity.
  assert (Hs : Ring.sind_quarter 0 == 0) by reflexivity.
  assert (Hin : In 0%Z [0; 90; 180; 270]%Z) by (left; reflexivity).
  split; [tauto|].
  exact (rotation_set_entry_zero Ring.cosd_quarter Ring.sind_quarter triangle
           [0; 90; 180; 270]%Z Hc Hs Hin).
Defined.

(** * Further properties of the program *)

(** ** When the sweep places nothing *)




(** ** The rotation set as a dictionary *)

Lemma in_first_occurrences (l : list Z) (a : Z) :
  In a (first_occurrences l) <-> In a l.
Proof.
  induction l as [|b l IH]; simpl; [tauto|].
  rewrite filter_In, IH, negb_true_iff, Z.eqb_neq.
  destruct (Z.eq_dec b a); tauto.
Qed.

Lemma existsb_eqb_in (l : list Z) (a : Z) :
  existsb (Z.eqb a) l = true <-> In a l.
Proof.
  rewrite existsb_exists. split.
  - intros [b [Hb E]]. apply Z.eqb_eq in E. subst b. exact Hb.
  - intros Ha. exists a. split; [exact Ha | apply Z.eqb_refl].
Qed.

Lemma first_occurrences_snoc (l : list Z) (a : Z) :
  first_occurrences (l ++ [a]) =
  if existsb (Z.eqb a) l then first_occurrences l
  else first_occurrences l ++ [a].
Proof.
  induction l as [|b l IH]; simpl; [reflexivity|].
  rewrite IH. destruct (Z.eqb_spec a b) as [->|Hne]; simpl.
  - destruct (existsb (Z.eqb b) l); [reflexivity|].
    rewrite filter_app. simpl. rewrite Z.eqb_refl. simpl.
    rewrite app_nil_r. reflexivity.
  - destruct (existsb (Z.eqb a) l); [reflexivity|].
    rewrite filter_app. simpl.
    destruct (Z.eqb_spec b a) as [E|_]; [congruence | reflexivity].
Qed.

Lemma NoDup_first_occurrences (l : list Z) : NoDup (first_occurrences l).
Proof.
  induction l as [|a l IH]; simpl; constructor.
  - rewrite filter_In, Z.eqb_refl. intros [_ H]. discriminate H.
  - apply NoDup_filter. exact IH.
Qed.

Lemma first_occurrences_NoDup (l : list Z) :
  NoDup l -> first_occurrences l = l.
Proof.
  induction 1 as [|a l Ha Hl IH]; simpl; [reflexivity|].
  rewrite IH. f_equal. clear IH Hl.
  induction l as [|b l IH]; simpl; [reflexivity|].
  destruct (Z.eqb_spec a b) as [->|_]; simpl.
  - exfalso. apply Ha. left. reflexivity.
  - f_equal. apply IH. intros H. apply Ha. right. exact H.
Qed.

Lemma dict_get_missing {P : Type} (d : Dict.t P) k :
  ~ In k (map fst d) -> Dict.get d k = None.
Proof.
  induction d as [|[k' v'] d IH]; simpl; [reflexivity|].
  intros Hk. destruct (Z.eqb_spec k' k) as [E|_]; [tauto|].
  apply IH. tauto.
Qed.

Section RotationSetOrder.

Context {P : Type}.
Variable rot : P -> Z -> P.

Lemma create_rotated_shapes_keys shape angles :
  map fst (create_rotated_shapes rot shape angles) = first_occurrences angles.
Proof.
  induction angles as [|a angles IH] using rev_ind; [reflexivity|].
  rewrite create_rotated_shapes_snoc, dict_set_keys, first_occurrences_snoc, IH.
  assert (E : existsb (Z.eqb a) (first_occurrences angles)
              = existsb (Z.eqb a) angles).
  { apply eq_true_iff_eq.
    rewrite !existsb_eqb_in. apply in_first_occurrences. }
  rewrite E. reflexivity.
Qed.

Lemma create_rotated_shapes_items shape angles :
  Dict.items (create_rotated_shapes rot shape angles) =
  map (fun a => (a, rot shape a)) (first_occurrences angles).
Proof.
  rewrite <- (create_rotated_shapes_keys shape angles). unfold Dict.items.
  pose proof (create_rotated_shapes_values rot shape angles) as Hv.
  induction Hv as [|[k v] d Hkv Hd IH]; simpl; [reflexivity|].
  simpl in Hkv. rewrite Hkv, <- IH. reflexivity.
Qed.

End RotationSetOrder.

(** X4: the dictionary [create_rotated_shapes] returns answers a lookup of
    an angle of the list with the shape rotated by that angle, however often
    the angle is listed, and a lookup of any other angle with no entry (a
    [KeyError]); no key occurs twice, so it never has more entries than the
    list has angles. *)
Theorem rotation_set_lookup {P : Type} (rot : P -> Z -> P) (shape : P)
        (angles : list Z) (a : Z) :
  Dict.get (create_rotated_shapes rot shape angles) a =
    (if in_dec Z.eq_dec a angles then Some (rot shape a) else None) /\
  NoDup (map fst (Dict.items (create_rotated_shapes rot shape angles))) /\
  (List.length (Dict.items (create_rotated_shapes rot shape angles))
   <= List.length angles)%nat.
Proof.
  split; [|split].
  - destruct (in_dec Z.eq_dec a angles) as [Hin|Hout].
    + apply create_rotated_shapes_get. exact Hin.
    + apply dict_get_missing.
      rewrite create_rotated_shapes_keys, in_first_occurrences. exact Hout.
  - unfold Dict.items. rewrite create_rotated_shapes_keys.
    apply NoDup_first_occurrences.
  - unfold Dict.items.
    rewrite <- (length_map fst), create_rotated_shapes_keys.
    apply NoDup_incl_length; [apply NoDup_first_occurrences|].
    intros b Hb. exact (proj1 (in_first_occurrences angles b) Hb).
Qed.

(** X5: the entries of the rotation set, in the order in which
    [place_shapes] tries them at an anchor, are the angles of the list in
    the order of their first occurrence, each with the shape rotated by it;
    for a list without repetition that is the list itself, in its order. *)
Theorem rotation_set_items_in_list_order {P : Type} (rot : P -> Z -> P)
        (shape : P) (angles : list Z) :
  Dict.items (create_rotated_shapes rot shape angles) =
    map (fun a => (a, rot shape a)) (first_occurrences angles) /\
  (NoDup angles ->
   Dict.items (create_rotated_shapes rot shape angles) =
     map (fun a => (a, rot shape a)) angles).
Proof.
  split; [apply create_rotated_shapes_items|].
  intros Hnd. rewrite create_rotated_shapes_items.
  rewrite (first_occurrences_NoDup angles Hnd). reflexivity.
Qed.

(** X6: listing an angle again changes nothing: two angle lists with the
    same angles in the same order of first occurrence give the same result
    of [place_shapes], the same list or the same failure. *)
Theorem place_shapes_ignores_repeated_angles (g : Geometry)
        (container shape : Polygon g) (angles angles' : list Z)
        (grid_step : Q) :
  first_occurrences angles = first_occurrences angles' ->
  place_shapes g container shape angles grid_step =
  place_shapes g container shape angles' grid_step.
Proof.
  intros Hsame.
  assert (E : create_rotated_shapes rotate shape angles =
              create_rotated_shapes rotate shape angles').
  { pose proof (create_rotated_shapes_items (@rotate g) shape angles) as H1.
    pose proof (create_rotated_shapes_items (@rotate g) shape angles') as H2.
    unfold Dict.items in H1, H2. rewrite H1, H2, Hsame. reflexivity. }
  unfold place_shapes. rewrite E. reflexivity.
Qed.

Lemma place_shapes_ignores_repeated_angles_witness :
  first_occurrences [0; 90; 0; 90; 180]%Z = first_occurrences [0; 90; 180]%Z /\
  place_shapes Box.geometry container_10x10 (Box.mk 0 0 4 2)
               [0; 90; 0; 90; 180]%Z 5 =
  place_shapes Box.geometry container_10x10 (Box.mk 0 0 4 2)
               [0; 90; 180]%Z 5.
Proof.
  assert (Hsame : first_occurrences [0; 90; 0; 90; 180]%Z
                  = first_occurrences [0; 90; 180]%Z) by reflexivity.
  split; [exact Hsame|].
  exact (place_shapes_ignores_repeated_angles Box.geometry container_10x10
           (Box.mk 0 0 4 2) _ _ 5 Hsame).
Defined.

(** ** What the sweep places, and what it leaves out *)

Lemma Subseq_length {A : Type} (s l : list A) :
  Subseq s l -> (List.length s <= List.length l)%nat.
Proof. induction 1; simpl; lia. Qed.

Lemma Subseq_In {A : Type} (s l : list A) (a : A) :
  Subseq s l -> In a s -> In a l.
Proof.
  induction 1 as [|b s l _ IH|b s l _ IH]; simpl; [tauto | tauto |].
  intros [->|H]; [left; reflexivity | right; apply IH; exact H].
Qed.

Section SweepFacts.

Variable g : Geometry.
Variables container shape : Polygon g.
Variable angles : list Z.

(** The shape rotated by [a] and moved to the anchor [xy]. *)
Let candidate (xy : Q * Q) (a : Z) : Polygon g :=
  translate (rotate shape a) (fst xy) (snd xy).

Let step : list (Polygon g) -> Q * Q -> list (Polygon g) :=
  place_at (Dict.items (create_rotated_shapes rotate shape angles)) container.

Lemma place_at_first_passing placed xy :
  step placed xy =
  match find (fun a => fst (can_place g (candidate xy a) container placed))
             angles with
  | Some a => placed ++ [candidate xy a]
  | None => placed
  end.
Proof.
  unfold step, place_at. rewrite try_angles_find.
  rewrite (create_rotated_shapes_items (@rotate g) shape angles).
  rewrite <- (create_rotated_shapes_find (@rotate g) _ shape angles).
  rewrite (create_rotated_shapes_keys (@rotate g) shape angles).
  cbn [snd].
  induction (first_occurrences angles) as [|a l IH]; [reflexivity|].
  cbn [map find]. unfold accepts at 1. cbn [snd]. fold (candidate xy a).
  destruct (fst (can_place g (candidate xy a) container placed));
    [reflexivity | exact IH].
Qed.

Lemma sweep_provenance l s :
  exists sel : list ((Q * Q) * Z),
    fold_left step l s = s ++ map (fun xa => candidate (fst xa) (snd xa)) sel /\
    Subseq (map fst sel) l /\
    Forall (fun xa => In (snd xa) angles) sel.
Proof.
  revert s. induction l as [|xy l IH]; intros s; simpl.
  - exists []. simpl. rewrite app_nil_r.
    split; [reflexivity|]. split; constructor.
  - destruct (IH (step s xy)) as (sel & E & Hsub & Hang).
    rewrite place_at_first_passing in E |- *.
    destruct (find _ angles) as [a|] eqn:F.
    + exists ((xy, a) :: sel). rewrite E. simpl. rewrite <- app_assoc.
      split; [reflexivity|]. split.
      * apply Subseq_take. exact Hsub.
      * constructor; [|exact Hang]. apply find_some in F. exact (proj1 F).
    + exists sel. split; [exact E|]. split; [|exact Hang].
      apply Subseq_skip. exact Hsub.
Qed.

Lemma sweep_extends l s : exists rest, fold_left step l s = s ++ rest.
Proof.
  destruct (sweep_provenance l s) as (sel & E & _). eexists. exact E.
Qed.

Lemma can_place_antitone (c : Polygon g) placed placed' :
  incl placed placed' ->
  fst (can_place g c container placed') = true ->
  fst (can_place g c container placed) = true.
Proof.
  intros Hincl. rewrite !can_place_true, !Forall_forall.
  intros [Hc H]. split; [exact Hc|]. intros e He. apply H. apply Hincl. exact He.
Qed.

Lemma sweep_saturated l s xy a :
  In xy l -> In a angles ->
  (exists b, In b angles /\ In (candidate xy b) (fold_left step l s)) \/
  fst (can_place g (candidate xy a) container (fold_left step l s)) = false.
Proof.
  revert s. induction l as [|xy' l IH]; intros s Hxy Ha; [contradiction|].
  simpl. destruct Hxy as [->|Hxy]; [|apply IH; assumption].
  destruct (sweep_extends l (step s xy)) as [rest E]. rewrite E.
  rewrite place_at_first_passing.
  destruct (find _ angles) as [b|] eqn:F.
  - left. exists b. apply find_some in F.
    split; [exact (proj1 F)|]. rewrite !in_app_iff. simpl. tauto.
  - right. pose proof (find_none _ _ F a Ha) as Hrej. simpl in Hrej.
    destruct (fst (can_place g (candidate xy a) container (s ++ rest))) eqn:C;
      [|reflexivity].
    rewrite (can_place_antitone (candidate xy a) s (s ++ rest)) in Hrej;
      [discriminate | apply incl_appl; apply incl_refl | exact C].
Qed.

End SweepFacts.

(** X7: every polygon [place_shapes] returns is the base shape rotated by
    an angle of the list and moved to an anchor of the grid; the polygons
    come in the order of the sweep, at most one per anchor, so there are
    never more of them than anchors. *)
Theorem place_shapes_provenance (g : Geometry) (container shape : Polygon g)
        (angles : list Z) (grid_step : Q) (placed : list (Polygon g)) :
  place_shapes g container shape angles grid_step = Some placed ->
  exists (l : list (Q * Q)) (sel : list ((Q * Q) * Z)),
    anchors (bounds container) grid_step = Some l /\
    placed = map (fun xa => translate (rotate shape (snd xa))
                                      (fst (fst xa)) (snd (fst xa))) sel /\
    Subseq (map fst sel) l /\
    Forall (fun xa => In (snd xa) angles) sel /\
    (List.length placed <= List.length l)%nat.
Proof.
  rewrite place_shapes_anchors.
  destruct (anchors (bounds container) grid_step) as [l|]; [|discriminate].
  simpl. intros [= <-].
  destruct (sweep_provenance g container shape angles l [])
    as (sel & E & Hsub & Hang).
  exists l, sel. split; [reflexivity|]. split; [exact E|].
  split; [exact Hsub|]. split; [exact Hang|].
  rewrite E. simpl. rewrite length_map, <- (length_map fst).
  apply Subseq_length. exact Hsub.
Qed.

Lemma place_shapes_provenance_witness :
  exists placed (l : list (Q * Q)),
    place_shapes Box.geometry container_10x10 unit_square [0%Z] 1
      = Some placed /\
    anchors (Box.bounds container_10x10) 1 = Some l /\
    (List.length placed <= List.length l)%nat.
Proof.
  assert (Hrun : place_shapes Box.geometry container_10x10 unit_square [0%Z] 1
                 = Some even_squares) by (vm_compute; reflexivity).
  destruct (place_shapes_provenance Box.geometry container_10x10 unit_square
              [0%Z] 1 even_squares Hrun) as (l & sel & E & _ & _ & _ & Hlen).
  exists even_squares, l. split; [exact Hrun|]. split; [exact E | exact Hlen].
Defined.

(** X8: the list only grows during the sweep: the list as it is after any
    initial part of the anchors is an initial part of the list
    [place_shapes] returns; nothing placed is removed or moved later. *)
Theorem place_shapes_keeps_what_it_placed (g : Geometry)
        (container shape : Polygon g) (angles : list Z) (grid_step : Q)
        (placed : list (Polygon g)) :
  place_shapes g container shape angles grid_step = Some placed ->
  exists l,
    anchors (bounds container) grid_step = Some l /\
    forall l1 l2, l = l1 ++ l2 ->
      exists rest,
        placed =
        fold_left (place_at (Dict.items
                               (create_rotated_shapes rotate shape angles))
                            container) l1 [] ++ rest.
Proof.
  rewrite place_shapes_anchors.
  destruct (anchors (bounds container) grid_step) as [l|]; [|discriminate].
  simpl. intros [= <-]. exists l. split; [reflexivity|].
  intros l1 l2 ->. rewrite fold_left_app. apply sweep_extends.
Qed.

Lemma place_shapes_keeps_what_it_placed_witness :
  exists placed (l : list (Q * Q)),
    place_shapes Box.geometry container_10x10 unit_square [0%Z] 1
      = Some placed /\
    anchors (Box.bounds container_10x10) 1 = Some l /\
    exists rest,
      placed =
      fold_left (@place_at Box.geometry
                   (Dict.items (create_rotated_shapes Box.rotate unit_square
                                                      [0%Z]))
                   container_10x10) (firstn 30 l) [] ++ rest.
Proof.
  assert (Hrun : place_shapes Box.geometry container_10x10 unit_square [0%Z] 1
                 = Some even_squares) by (vm_compute; reflexivity).
  destruct (place_shapes_keeps_what_it_placed Box.geometry container_10x10
              unit_square [0%Z] 1 even_squares Hrun) as (l & E & Hpre).
  exists even_squares, l. split; [exact Hrun|]. split; [exact E|].
  apply (Hpre (firstn 30 l) (skipn 30 l)). symmetry. apply firstn_skipn.
Defined.

(** X9: once [can_place] has rejected a candidate it rejects it against
    every list that holds the same shapes and more: a candidate accepted
    against a list is accepted against every list whose shapes all occur in
    it. *)
Theorem can_place_accepts_against_fewer (g : Geometry)
        (candidate container : Polygon g) (placed placed' : list (Polygon g)) :
  incl placed placed' ->
  fst (can_place g candidate container placed') = true ->
  fst (can_place g candidate container placed) = true.
Proof.
  intros Hincl. rewrite !can_place_true, !Forall_forall.
  intros [Hinside Hapart]. split; [exact Hinside|].
  intros e He. apply Hapart. apply Hincl. exact He.
Qed.

Lemma can_place_accepts_against_fewer_witness :
  (incl [unit_square] [unit_square; Box.mk 2 0 3 1] /\
   fst (can_place Box.geometry (Box.mk 4 0 5 1) container_10x10
                  [unit_square; Box.mk 2 0 3 1]) = true) /\
  fst (can_place Box.geometry (Box.mk 4 0 5 1) container_10x10 [unit_square])
  = true.
Proof.
  assert (Hincl : incl [unit_square] [unit_square; Box.mk 2 0 3 1])
    by (intros p [<-|[]]; left; reflexivity).
  assert (Hacc : fst (can_place Box.geometry (Box.mk 4 0 5 1) container_10x10
                        [unit_square; Box.mk 2 0 3 1]) = true)
    by reflexivity.
  split; [split; assumption|].
  exact (can_place_accepts_against_fewer Box.geometry (Box.mk 4 0 5 1)
           container_10x10 _ _ Hincl Hacc).
Defined.

(** X10: the sweep leaves no room at the anchors it passed over: for every
    anchor of the grid and every angle of the list, either a shape was
    placed at that anchor, or [can_place] rejects the candidate of that
    angle at that anchor against the list [place_shapes] returns. *)
Theorem place_shapes_saturates_the_grid (g : Geometry)
        (container shape : Polygon g) (angles : list Z) (grid_step : Q)
        (placed : list (Polygon g)) :
  place_shapes g container shape angles grid_step = Some placed ->
  exists l,
    anchors (bounds container) grid_step = Some l /\
    forall x y a, In (x, y) l -> In a angles ->
      (exists b, In b angles /\ In (translate (rotate shape b) x y) placed) \/
      fst (can_place g (translate (rotate shape a) x y) container placed)
      = false.
Proof.
  rewrite place_shapes_anchors.
  destruct (anchors (bounds container) grid_step) as [l|]; [|discriminate].
  simpl. intros [= <-]. exists l. split; [reflexivity|].
  intros x y a Hxy Ha.
  exact (sweep_saturated g container shape angles l [] (x, y) a Hxy Ha).
Qed.

Lemma place_shapes_saturates_the_grid_witness :
  place_shapes Box.geometry (Box.mk 0 0 2 2) unit_square [0%Z] 1
    = Some [unit_square] /\
  fst (can_place Box.geometry (Box.translate (Box.rotate unit_square 0) 1 1)
                 (Box.mk 0 0 2 2) [unit_square]) = false.
Proof.
  assert (Hrun : place_shapes Box.geometry (Box.mk 0 0 2 2) unit_square
                              [0%Z] 1 = Some [unit_square])
    by (vm_compute; reflexivity).
  split; [exact Hrun|].
  destruct (place_shapes_saturates_the_grid Box.geometry (Box.mk 0 0 2 2)
              unit_square [0%Z] 1 [unit_square] Hrun) as (l & E & Hsat).
  vm_compute in E. injection E as <-.
  destruct (Hsat 1 1 0%Z) as [[b [Hb0 Hb]]|Hrej].
  - right. right. right. left. reflexivity.
  - left. reflexivity.
  - exfalso. destruct Hb0 as [<-|[]]. destruct Hb as [Hb|[]].
    vm_compute in Hb. discriminate Hb.
  - exact Hrej.
Defined.

(** X11: [place_shapes] returns the empty list exactly when the container
    contains no candidate at all: at no anchor of the grid the shape
    rotated by an angle of the list and moved there; in particular a shape
    that fits nowhere gives an empty layout, not an error. *)
Theorem place_shapes_empty_iff_nothing_fits (g : Geometry)
        (container shape : Polygon g) (angles : list Z) (grid_step : Q)
        (placed : list (Polygon g)) :
  place_shapes g container shape angles grid_step = Some placed ->
  exists l,
    anchors (bounds container) grid_step = Some l /\
    (placed = [] <->
     forall x y a, In (x, y) l -> In a angles ->
       contains container (translate (rotate shape a) x y) = false).
Proof.
  intros Hrun.
  pose proof (place_shapes_ok g _ _ _ _ _ Hrun) as Hok.
  revert Hrun. rewrite place_shapes_anchors.
  destruct (anchors (bounds container) grid_step) as [l|]; [|discriminate].
  simpl. intros [= Hfold]. exists l. split; [reflexivity|]. split.
  - intros Hempty x y a Hxy Ha.
    destruct (sweep_saturated g container shape angles l [] (x, y) a Hxy Ha)
      as [[b [_ Hb]]|Hrej].
    + rewrite Hfold, Hempty in Hb. destruct Hb.
    + rewrite Hfold, Hempty, can_place_fst in Hrej. simpl in Hrej.
      rewrite andb_true_r in Hrej. exact Hrej.
  - intros Hnone.
    destruct (sweep_provenance g container shape angles l [])
      as (sel & E & Hsub & Hang).
    rewrite Hfold in E. simpl in E.
    destruct sel as [|[[x y] a] sel]; [exact E|]. exfalso.
    assert (Hxy : In (x, y) l).
    { apply (Subseq_In _ _ _ Hsub). left. reflexivity. }
    assert (Ha : In a angles) by exact (Forall_inv Hang).
    pose proof (ok_contained Hok) as Hc. rewrite E in Hc.
    apply Forall_inv in Hc. simpl in Hc.
    rewrite (Hnone x y a Hxy Ha) in Hc. discriminate Hc.
Qed.

Lemma place_shapes_empty_iff_nothing_fits_witness :
  place_shapes Box.geometry unit_square container_10x10 [0; 90]%Z 1 = Some [] /\
  exists l,
    anchors (Box.bounds unit_square) 1 = Some l /\
    forall x y a, In (x, y) l -> In a [0; 90]%Z ->
      Box.contains unit_square
                   (Box.translate (Box.rotate container_10x10 a) x y) = false.
Proof.
  assert (Hrun : place_shapes Box.geometry unit_square container_10x10
                              [0; 90]%Z 1 = Some [])
    by (vm_compute; reflexivity).
  split; [exact Hrun|].
  destruct (place_shapes_empty_iff_nothing_fits Box.geometry unit_square
              container_10x10 [0; 90]%Z 1 [] Hrun) as (l & E & Hiff).
  exists l. split; [exact E|]. apply Hiff. reflexivity.
Defined.



(** ** The two buttons *)

Lemma draw_full_convex_hull_no_dialog (g : Geometry)
      (ConvexHull : list Point2D -> option (list nat))
      (points : list Point2D) (x_limit y_limit : Q) title message :
  (3 <= List.length points)%nat ->
  draw_full_convex_hull g ConvexHull points x_limit y_limit
  <> ShowError title message.
Proof.
  intros Hlen. unfold draw_full_convex_hull.
  destruct (Nat.ltb_spec (List.length points) 3) as [Hlt|_]; [lia|].
  destruct (ConvexHull points); [|discriminate].
  destruct (place_shapes _ _ _ _ _); [|discriminate].
  destruct (utilization_percentage _ _ _); discriminate.
Qed.

(** X14: the button that shows the cutting area answers "Please select
    points first!" exactly when no points are stored or fewer than three
    are; otherwise it runs [draw_full_convex_hull] on the stored points
    with a container of 1000 by 200.  The dialog of [draw_full_convex_hull]
    about fewer than three points can therefore never appear through this
    button. *)
Theorem on_display_cutting_area_guard (g : Geometry)
        (ConvexHull : list Point2D -> option (list nat))
        (points : option (list Point2D)) :
  let outcome := on_display_cutting_area g ConvexHull points in
  (outcome = ShowError "Error" "Please select points first!" <->
   points = None \/
   exists selected, points = Some selected /\ (List.length selected < 3)%nat) /\
  (forall selected, points = Some selected ->
     (3 <= List.length selected)%nat ->
     outcome = draw_full_convex_hull g ConvexHull selected 1000 200) /\
  outcome <> ShowError "Error" "At least 3 points must be selected!".
Proof.
  intros outcome. subst outcome. unfold on_display_cutting_area.
  destruct points as [selected|].
  - destruct (Nat.ltb_spec (List.length selected) 3) as [Hlt|Hge].
    + split; [|split].
      * split; [|reflexivity]. intros _. right. exists selected.
        split; [reflexivity | exact Hlt].
      * intros sel [= <-] H. lia.
      * discriminate.
    + split; [|split].
      * split.
        -- intros H. exfalso.
           exact (draw_full_convex_hull_no_dialog g ConvexHull selected
                    1000 200 _ _ Hge H).
        -- intros [H|[sel [[= <-] H]]]; [discriminate H | lia].
      * intros sel [= <-] _. reflexivity.
      * apply draw_full_convex_hull_no_dialog. exact Hge.
  - split; [|split].
    + split; [intros _; left; reflexivity | reflexivity].
    + intros sel H. discriminate H.
    + discriminate.
Qed.

Lemma stored_points_enough (presses : list Press) (start : option (list Point2D)) :
  match start with
  | Some selected => (3 <= List.length selected)%nat
  | None => True
  end ->
  match fold_left after_press presses start with
  | Some selected => (3 <= List.length selected)%nat
  | None => True
  end.
Proof.
  revert start. induction presses as [|p presses IH]; intros start Hstart;
    [exact Hstart|].
  simpl. apply IH. destruct p as [selected|]; [|exact Hstart].
  unfold after_press, on_select_points.
  destruct (Nat.ltb_spec (List.length selected) 3) as [Hlt|Hge]; simpl;
    [exact I | exact Hge].
Qed.

(** X15: whatever buttons were pressed since the program started, the
    stored points are either absent or at least three.  A selection of
    fewer than three points does not keep the earlier selection: it leaves
    no points stored, and a warning is shown; a selection of at least three
    points is stored, and showing the cutting area does not change it. *)
Theorem stored_points_after_presses (presses : list Press) :
  match points_after presses with
  | Some selected => (3 <= List.length selected)%nat
  | None => True
  end /\
  (forall selected, (List.length selected < 3)%nat ->
     points_after (presses ++ [SelectPoints selected]) = None /\
     fst (on_select_points selected (points_after presses)) =
       showwarning "Warning" "At least 3 points must be selected!") /\
  (forall selected n, (3 <= List.length selected)%nat ->
     points_after (presses ++ SelectPoints selected :: repeat ShowCuttingArea n)
     = Some selected).
Proof.
  split; [|split].
  - apply stored_points_enough. exact I.
  - intros selected Hlt. unfold points_after. rewrite fold_left_app. simpl.
    unfold on_select_points.
    destruct (Nat.ltb_spec (List.length selected) 3) as [_|Hge]; [|lia].
    split; reflexivity.
  - intros selected n Hge. unfold points_after. rewrite fold_left_app. simpl.
    unfold on_select_points.
    destruct (Nat.ltb_spec (List.length selected) 3) as [Hlt|_]; [lia|].
    simpl. induction n as [|n IH]; [reflexivity | exact IH].
Qed.

(** ** The area the sweep covers *)

Lemma Box_area_rotate (p : Box.t) (a : Z) :
  Box.area (Box.rotate p a) == Box.area p.
Proof.
  unfold Box.rotate, Box.area. destruct (_ =? _)%Z; [|reflexivity].
  cbn [Box.x0 Box.x1 Box.y0 Box.y1]. unfold Qdiv. change (/ 2) with (1 # 2).
  ring.
Qed.

Lemma Box_area_translate (p : Box.t) (x y : Q) :
  Box.area (Box.translate p x y) == Box.area p.
Proof. unfold Box.translate, Box.area. cbn [Box.x0 Box.x1 Box.y0 Box.y1]. ring. Qed.

(** X16: when rotating and moving a polygon keep its area, the sum of the
    areas the efficiency calculation adds up is the number of placed shapes
    times the area of the base shape: every placed polygon is a moved
    rotation of it. *)
Theorem placed_area_counts_shapes (g : Geometry) (container shape : Polygon g)
        (angles : list Z) (grid_step : Q) (placed : list (Polygon g)) :
  (forall (p : Polygon g) a, area (rotate p a) == area p) ->
  (forall (p : Polygon g) x y, area (translate p x y) == area p) ->
  place_shapes g container shape angles grid_step = Some placed ->
  total_shape_area g placed ==
  inject_Z (Z.of_nat (List.length placed)) * area shape.
Proof.
  intros Hrot Htr Hrun.
  pose proof (ok_copies (place_shapes_ok g _ _ _ _ _ Hrun)) as Hcopies.
  rewrite total_shape_area_sum. clear Hrun.
  induction Hcopies as [|p l [a [x [y ->]]] Hl IH].
  - simpl. ring.
  - cbn [fold_right List.length]. rewrite IH, Htr, Hrot.
    rewrite Nat2Z.inj_succ. unfold Z.succ. rewrite inject_Z_plus.
    change (inject_Z 1) with 1. ring.
Qed.

Lemma placed_area_counts_shapes_witness :
  exists placed,
    place_shapes Box.geometry container_10x10 (Box.mk 0 0 4 2) [0; 90]%Z 5
      = Some placed /\
    total_shape_area Box.geometry placed ==
    inject_Z (Z.of_nat (List.length placed)) * Box.area (Box.mk 0 0 4 2).
Proof.
  destruct (place_shapes_total Box.geometry container_10x10 (Box.mk 0 0 4 2)
              [0; 90]%Z 5) as [placed Hrun]; [discriminate|].
  exists placed. split; [exact Hrun|].
  exact (placed_area_counts_shapes Box.geometry container_10x10
           (Box.mk 0 0 4 2) [0; 90]%Z 5 placed
           Box_area_rotate Box_area_translate Hrun).
Defined.
